(** * POSIX semaphores over native handles: a model of [src/sem.c]

    The adapter in [sem.c] implements [sem_init], [sem_wait], [sem_trywait],
    [sem_timedwait], [sem_post], [sem_getvalue], [sem_destroy], [sem_open],
    [sem_close] and [sem_unlink] on top of the host calls [CreateSemaphore],
    [WaitForSingleObject], [ReleaseSemaphore], [CloseHandle] and
    [GetLastError].

    The embedding is a state-and-error monad over a [world] that holds the
    process memory (pointer-sized cells), the live [calloc] blocks, the
    native handle table with its kernel semaphore objects, the two error
    slots ([errno] and the host's last-error code) and a clock.  Every C
    function is transcribed statement by statement into that monad. *)

From Stdlib Require Import ZArith Lia Bool Ascii String.
From stdpp Require Import base gmap strings.

Local Open Scope Z_scope.

(** ** Machine integers *)

Module CInt.

Definition INT_MAX : Z := 2147483647.
Definition LONG_MAX : Z := 2147483647.

(** Conversion to [unsigned int] / [DWORD]: reduction modulo 2^32. *)
Definition to_uint (z : Z) : Z := z mod 4294967296.

(** Conversion to [int] / [long] / [LONG] (all 32 bits wide on the target):
    two's complement wrap-around. *)
Definition to_int (z : Z) : Z := (z + 2147483648) mod 4294967296 - 2147483648.

End CInt.
Export CInt.

(** ** Constants of the host interface and of the C library *)

Definition NULL : Z := 0.

(** [winbase.h] / [winerror.h]. *)
Definition INFINITE : Z := 4294967295.
Definition WAIT_OBJECT_0 : Z := 0.
Definition WAIT_TIMEOUT : Z := 258.
Definition WAIT_FAILED : Z := 4294967295.

Definition ERROR_SUCCESS : Z := 0.
Definition ERROR_ACCESS_DENIED : Z := 5.
Definition ERROR_INVALID_HANDLE : Z := 6.
Definition ERROR_INVALID_PARAMETER : Z := 87.
Definition ERROR_ALREADY_EXISTS : Z := 183.
Definition ERROR_TOO_MANY_POSTS : Z := 298.

(** [fcntl.h] of the Microsoft C runtime. *)
Definition O_CREAT : Z := 256.
Definition O_EXCL : Z := 1024.

(** [pthread.h]: the doc comment of [sem_init] reads
    "(0 or PTHREAD_PROCESS_PRIVATE)". *)
Definition PTHREAD_PROCESS_PRIVATE : Z := 0.

(** The values [errno] takes in [sem.c]. *)
Inductive errno_code : Set :=
| EINVAL | ENOMEM | ENOSPC | EAGAIN | ETIMEDOUT
| EOVERFLOW | EACCES | ENOENT | EEXIST.

#[global] Instance errno_code_eq_dec : EqDecision errno_code.
Proof. solve_decision. Defined.

(** ** The world *)

(** A kernel semaphore object: its counter, its bound, its name (the empty
    string for an anonymous object) and the number of open references. *)
Record ksem : Set := KSem {
  count : Z;
  maximum : Z;
  kname : string;
  refs : Z
}.

Definition set_count (c : Z) (k : ksem) : ksem :=
  {| count := c; maximum := maximum k; kname := kname k; refs := refs k |}.

Definition set_refs (r : Z) (k : ksem) : ksem :=
  {| count := count k; maximum := maximum k; kname := kname k; refs := r |}.

Record world : Type := World {
  (** accessible pointer-sized memory cells, address to contents *)
  mem : gmap Z Z;
  (** base addresses of the live [calloc] blocks *)
  heap : gset Z;
  (** open native handles of this process, handle to kernel object *)
  handles : gmap Z Z;
  (** live kernel semaphore objects *)
  objects : gmap Z ksem;
  (** the host's object namespace, name to kernel object *)
  namespace : gmap string Z;
  (** what [GetLastError] returns *)
  last_error : Z;
  (** the C library's [errno]; [None] until first set *)
  errno : option errno_code;
  (** current time, in milliseconds since the Epoch *)
  clock : Z;
  (** whether the allocator is out of memory *)
  calloc_fails : bool;
  (** when [Some e], the host refuses to create objects, with last error [e] *)
  create_fault : option Z
}.

Definition set_mem (m : gmap Z Z) (w : world) : world :=
  World m (heap w) (handles w) (objects w) (namespace w) (last_error w)
        (errno w) (clock w) (calloc_fails w) (create_fault w).

Definition set_heap (s : gset Z) (w : world) : world :=
  World (mem w) s (handles w) (objects w) (namespace w) (last_error w)
        (errno w) (clock w) (calloc_fails w) (create_fault w).

Definition set_handles (t : gmap Z Z) (w : world) : world :=
  World (mem w) (heap w) t (objects w) (namespace w) (last_error w)
        (errno w) (clock w) (calloc_fails w) (create_fault w).

Definition set_objects (o : gmap Z ksem) (w : world) : world :=
  World (mem w) (heap w) (handles w) o (namespace w) (last_error w)
        (errno w) (clock w) (calloc_fails w) (create_fault w).

Definition set_namespace (n : gmap string Z) (w : world) : world :=
  World (mem w) (heap w) (handles w) (objects w) n (last_error w)
        (errno w) (clock w) (calloc_fails w) (create_fault w).

Definition set_last_error (e : Z) (w : world) : world :=
  World (mem w) (heap w) (handles w) (objects w) (namespace w) e
        (errno w) (clock w) (calloc_fails w) (create_fault w).

Definition put_errno (e : errno_code) (w : world) : world :=
  World (mem w) (heap w) (handles w) (objects w) (namespace w) (last_error w)
        (Some e) (clock w) (calloc_fails w) (create_fault w).

Definition set_clock (t : Z) (w : world) : world :=
  World (mem w) (heap w) (handles w) (objects w) (namespace w) (last_error w)
        (errno w) t (calloc_fails w) (create_fault w).

(** ** Outcomes and the monad *)

(** A call either returns a value in a new world, or its behaviour is
    undefined (a null or dangling pointer is dereferenced, a pointer that
    [calloc] did not return is freed), or it never returns. *)
Inductive outcome (A : Type) : Type :=
| Ret (a : A) (w : world)
| Fault
| Blocked.
Arguments Ret {A} a w.
Arguments Fault {A}.
Arguments Blocked {A}.

Definition M (A : Type) : Type := world -> outcome A.

Definition ret {A} (a : A) : M A := fun w => Ret a w.

Definition bind {A B} (c : M A) (k : A -> M B) : M B :=
  fun w => match c w with
           | Ret a w' => k a w'
           | Fault => Fault
           | Blocked => Blocked
           end.

Notation "'let*' x ':=' c 'in' k" := (bind c (fun x => k))
  (at level 10, x name, c at level 100, k at level 200).

(** ** Memory *)

Definition load (p : Z) : M Z := fun w =>
  if p =? NULL then Fault
  else match mem w !! p with
       | Some v => Ret v w
       | None => Fault
       end.

Definition store (p v : Z) : M unit := fun w =>
  if p =? NULL then Fault
  else match mem w !! p with
       | Some _ => Ret tt (set_mem (<[p := v]> (mem w)) w)
       | None => Fault
       end.

(** [calloc(1, sizeof(arch_sem_t))]: a fresh zeroed block of one cell, or
    [NULL] when the allocator is exhausted. *)
Definition new_block (w : world) : Z := fresh (dom (mem w) ∪ heap w ∪ {[NULL]}).

Definition calloc : M Z := fun w =>
  if calloc_fails w then Ret NULL w
  else let a := new_block w in
       Ret a (set_heap ({[a]} ∪ heap w) (set_mem (<[a := 0]> (mem w)) w)).

(** [free(p)]: the block stops being accessible. *)
Definition free (p : Z) : M unit := fun w =>
  if p =? NULL then Ret tt w
  else if bool_decide (p ∈ heap w)
       then Ret tt (set_heap (heap w ∖ {[p]}) (set_mem (delete p (mem w)) w))
       else Fault.

(** ** The host: kernel semaphore objects behind handles

    The five host calls are not part of the repository.  They are modelled
    after their documented behaviour, as one thread observes it: a bounded
    counter per object, handles that refer to objects, a namespace for named
    objects, and a last-error slot written by the calls that fail and by a
    successful [CreateSemaphore]. *)

Definition GetLastError : M Z := fun w => Ret (last_error w) w.

(** The kernel object a handle of this process refers to. *)
Definition resolve (h : Z) (w : world) : option (Z * ksem) :=
  match handles w !! h with
  | Some o => match objects w !! o with
              | Some k => Some (o, k)
              | None => None
              end
  | None => None
  end.

Definition new_handle (w : world) : Z := fresh (dom (handles w) ∪ {[NULL]}).
Definition new_object (w : world) : Z := fresh (dom (objects w)).

(** The object that already carries [name], if any; the empty name denotes
    an anonymous object and never matches. *)
Definition existing (name : string) (w : world) : option (Z * ksem) :=
  if bool_decide (name = EmptyString) then None
  else match namespace w !! name with
       | Some o => match objects w !! o with
                   | Some k => Some (o, k)
                   | None => None
                   end
       | None => None
       end.

(** [CreateSemaphore(NULL, init, max, name)]: a new handle, to the object
    named [name] when there is one (last error [ERROR_ALREADY_EXISTS], the
    counts are ignored) and to a new object otherwise (last error
    [ERROR_SUCCESS]); [NULL] when the host refuses or the counts are out of
    range. *)
Definition CreateSemaphore (init max : Z) (name : string) : M Z := fun w =>
  match create_fault w with
  | Some e => Ret NULL (set_last_error e w)
  | None =>
    if (init <? 0) || (max <=? 0) || (max <? init)
    then Ret NULL (set_last_error ERROR_INVALID_PARAMETER w)
    else
      let h := new_handle w in
      match existing name w with
      | Some (o, k) =>
          Ret h (set_last_error ERROR_ALREADY_EXISTS
                  (set_objects (<[o := set_refs (refs k + 1) k]> (objects w))
                    (set_handles (<[h := o]> (handles w)) w)))
      | None =>
          let o := new_object w in
          let w1 := set_objects (<[o := KSem init max name 1]> (objects w))
                      (set_handles (<[h := o]> (handles w)) w) in
          let w2 := if bool_decide (name = EmptyString) then w1
                    else set_namespace (<[name := o]> (namespace w1)) w1 in
          Ret h (set_last_error ERROR_SUCCESS w2)
      end
  end.

(** [WaitForSingleObject(h, ms)] as one thread sees it when no other thread
    runs: a positive counter is decremented at once; on a zero counter the
    call gives up after [ms] milliseconds, or never returns when [ms] is
    [INFINITE]. *)
Definition WaitForSingleObject (h ms : Z) : M Z := fun w =>
  match resolve h w with
  | None => Ret WAIT_FAILED (set_last_error ERROR_INVALID_HANDLE w)
  | Some (o, k) =>
      if 0 <? count k
      then Ret WAIT_OBJECT_0
               (set_objects (<[o := set_count (count k - 1) k]> (objects w)) w)
      else if ms =? INFINITE then Blocked
      else Ret WAIT_TIMEOUT (set_clock (clock w + ms) w)
  end.

(** [ReleaseSemaphore(h, n, &previous)]: the result and the previous count.
    The counter never passes the object's maximum. *)
Definition ReleaseSemaphore (h n : Z) : M (Z * Z) := fun w =>
  match resolve h w with
  | None => Ret (0, 0) (set_last_error ERROR_INVALID_HANDLE w)
  | Some (o, k) =>
      if n <=? 0 then Ret (0, 0) (set_last_error ERROR_INVALID_PARAMETER w)
      else if maximum k <? count k + n
      then Ret (0, 0) (set_last_error ERROR_TOO_MANY_POSTS w)
      else Ret (1, count k)
               (set_objects (<[o := set_count (count k + n) k]> (objects w)) w)
  end.

(** [CloseHandle(h)]: the handle leaves the table; the object goes with its
    last reference, and its name with it. *)
Definition CloseHandle (h : Z) : M Z := fun w =>
  match resolve h w with
  | None => Ret 0 (set_last_error ERROR_INVALID_HANDLE w)
  | Some (o, k) =>
      let w1 := set_handles (delete h (handles w)) w in
      if refs k <=? 1
      then Ret 1 (set_namespace
                    (if bool_decide (kname k = EmptyString) then namespace w1
                     else delete (kname k) (namespace w1))
                    (set_objects (delete o (objects w1)) w1))
      else Ret 1 (set_objects (<[o := set_refs (refs k - 1) k]> (objects w1)) w1)
  end.

(** ** Helpers declared in [misc.h] and [arch.h] *)

(** Modelled from the spec: [set_errno] is declared in [misc.h], outside
    [src/].  Every function of [sem.c] documents "If the function fails, the
    return value is -1, with errno set to indicate the error" and fails
    through [return set_errno(e)]: the helper stores [e] in the process-wide
    error slot and returns -1. *)
Definition set_errno (e : errno_code) : M Z := fun w => Ret (-1) (put_errno e w).

(** [struct timespec], passed by value: seconds and nanoseconds since the
    Epoch. *)
Record timespec : Set := Timespec { tv_sec : Z; tv_nsec : Z }.

Definition timespec_ms (t : timespec) : Z := tv_sec t * 1000 + tv_nsec t / 1000000.

(** Modelled from the spec: [arch_rel_time_in_ms] is declared in [misc.h],
    outside [src/].  The spec has it turn the absolute deadline into
    "deadline minus current time, floored at zero, expressed in the native
    call's time unit", a zero wait "rather than a negative value" once the
    deadline has passed. *)
Definition arch_rel_time_in_ms (abs_timeout : timespec) : M Z := fun w =>
  Ret (Z.max 0 (timespec_ms abs_timeout - clock w)) w.

(** The text [sprintf] produces for [%p]: sixteen hexadecimal digits. *)
Definition hex_digit (d : Z) : ascii :=
  ascii_of_nat (Z.to_nat (if d <? 10 then 48 + d else 55 + d)).

Fixpoint hex (n : nat) (z : Z) (acc : string) : string :=
  match n with
  | O => acc
  | S n' => hex n' (z / 16) (String (hex_digit (z mod 16)) acc)
  end.

Definition pointer_text (p : Z) : string := hex 16 p EmptyString.

(** The seven characters that place a name in the shared namespace:
    Global followed by a backslash. *)
Definition Global_prefix : string :=
  String.append "Global" (String (ascii_of_nat 92) EmptyString).

(** [strlen]: the number of bytes before the terminator, a [size_t].  On
    the 64-bit target (the 24-byte [buf] of [sem_init] is sized for the
    prefix and a sixteen-digit pointer) a [size_t] holds lengths that an
    [int] does not. *)
Definition strlen (s : string) : Z := Z.of_nat (String.length s).

(** [sizeof(buffer)] for [char buffer[512]] in [sem_open]. *)
Definition sizeof_buffer : Z := 512.

(** ** The semaphore routines of [sem.c]

    A [sem_t *] is an address.  [arch_sem_t] is declared in [arch.h],
    outside [src/]; the spec describes it as a "one-field handle wrapper",
    and [handle] is the only field the code uses.  So [pv->handle] is the
    cell at address [pv], and [*sem], a pointer like the handle, is the cell
    at address [sem]. *)

Section Sem.

(** [SEM_VALUE_MAX] comes from [semaphore.h], which is not under [src/]. *)
Variable SEM_VALUE_MAX : Z.

Definition sem_init (sem pshared value : Z) : M Z :=
  if (sem =? NULL) || (to_uint SEM_VALUE_MAX <? value) then set_errno EINVAL
  else
    let* pv := calloc in
    if pv =? NULL then set_errno ENOMEM
    else
      let buf := if negb (pshared =? PTHREAD_PROCESS_PRIVATE)
                 then String.append Global_prefix (pointer_text pv)
                 else EmptyString in
      let* h := CreateSemaphore (to_int value) (to_int SEM_VALUE_MAX) buf in
      let* _ := store pv h in
      if h =? NULL
      then let* _ := free pv in set_errno ENOSPC
      else let* _ := store sem pv in ret 0.

Definition sem_wait (sem : Z) : M Z :=
  let pv := sem in
  if (sem =? NULL) || (pv =? NULL) then set_errno EINVAL
  else
    let* h := load pv in
    let* rc := WaitForSingleObject h INFINITE in
    if negb (rc =? WAIT_OBJECT_0) then set_errno EINVAL
    else ret 0.

Definition sem_trywait (sem : Z) : M Z :=
  let pv := sem in
  if (sem =? NULL) || (pv =? NULL) then set_errno EINVAL
  else
    let* h := load pv in
    let* rc := WaitForSingleObject h 0 in
    if rc =? WAIT_OBJECT_0 then ret 0
    else if rc =? WAIT_TIMEOUT then set_errno EAGAIN
    else set_errno EINVAL.

Definition sem_timedwait (sem : Z) (abs_timeout : timespec) : M Z :=
  let pv := sem in
  if (sem =? NULL) || (pv =? NULL) then set_errno EINVAL
  else
    let* h := load pv in
    let* ms := arch_rel_time_in_ms abs_timeout in
    let* rc := WaitForSingleObject h (to_uint ms) in
    if rc =? WAIT_OBJECT_0 then ret 0
    else if rc =? WAIT_TIMEOUT then set_errno ETIMEDOUT
    else set_errno EINVAL.

Definition sem_post (sem : Z) : M Z :=
  let pv := sem in
  if (sem =? NULL) || (pv =? NULL) then set_errno EINVAL
  else
    let* h := load pv in
    let* r := ReleaseSemaphore h 1 in
    if fst r =? 0
    then let* e := GetLastError in
         if ERROR_TOO_MANY_POSTS =? e then set_errno EOVERFLOW
         else set_errno EINVAL
    else ret 0.

Definition sem_getvalue (sem value : Z) : M Z :=
  let pv := sem in
  let* h := load pv in
  let* rc := WaitForSingleObject h 0 in
  if rc =? WAIT_OBJECT_0 then
    let* h' := load pv in
    let* r := ReleaseSemaphore h' 1 in
    if fst r =? 0 then set_errno EINVAL
    else
      let previous := snd r in
      let* _ := store value (to_int (previous + 1)) in
      ret 0
  else if rc =? WAIT_TIMEOUT then
    let* _ := store value 0 in
    ret 0
  else set_errno EINVAL.

Definition sem_destroy (sem : Z) : M Z :=
  let pv := sem in
  if pv =? NULL then set_errno EINVAL
  else
    let* h := load pv in
    let* ok := CloseHandle h in
    if ok =? 0 then set_errno EINVAL
    else
      let* _ := free pv in
      let* _ := store sem NULL in
      ret 0.

(** [name] is [None] for a null pointer; [mode] is ignored by the code. *)
Definition sem_open (name : option string) (oflag mode value : Z) : M Z :=
  if to_uint SEM_VALUE_MAX <? value
  then let* _ := set_errno EINVAL in ret NULL
  else
    match name with
    | None => fun _ => Fault
    | Some s =>
      let len := to_int (strlen s) in
      if (to_int sizeof_buffer - 8 <? len) || (len <? 1)
      then let* _ := set_errno EINVAL in ret NULL
      else
        let* pv := calloc in
        if pv =? NULL
        then let* _ := set_errno ENOMEM in ret NULL
        else
          let buffer :=
            String.append Global_prefix (substring 0 (Z.to_nat len) s) in
          let* h := CreateSemaphore (to_int value) (to_int SEM_VALUE_MAX) buffer in
          let* _ := store pv h in
          if h =? NULL then
            let* e := GetLastError in
            let* _ := (if e =? ERROR_ACCESS_DENIED then set_errno EACCES
                       else if e =? ERROR_INVALID_HANDLE then set_errno ENOENT
                       else set_errno ENOSPC) in
            let* _ := free pv in
            ret NULL
          else
            let* e := GetLastError in
            if e =? ERROR_ALREADY_EXISTS then
              if negb (Z.land oflag O_CREAT =? 0) && negb (Z.land oflag O_EXCL =? 0)
              then
                let* h' := load pv in
                let* _ := CloseHandle h' in
                let* _ := free pv in
                let* _ := set_errno EEXIST in
                ret NULL
              else ret pv
            else
              if Z.land oflag O_CREAT =? 0
              then
                let* _ := free pv in
                let* _ := set_errno ENOENT in
                ret NULL
              else ret pv
    end.

Definition sem_close (sem : Z) : M Z := sem_destroy sem.

Definition sem_unlink (name : option string) : M Z := ret 0.

End Sem.

(** What [buffer] holds in [sem_open] once lines 242-244 have filled it: the
    prefix, then the first [len] bytes of the name. *)
Definition buffer_text (s : string) : string :=
  String.append Global_prefix (substring 0 (Z.to_nat (to_int (strlen s))) s).

(** ** Worlds and inputs the statements below are run on *)

Definition empty_world : world :=
  World ∅ ∅ ∅ ∅ ∅ 0 None 0 false None.

Definition result {A} (o : outcome A) : option A :=
  match o with Ret a _ => Some a | _ => None end.

(** The world [sem_open] leaves when it creates the semaphore named x with
    counter 3 in [empty_world]: the wrapper at address 1 holds handle 1 of
    kernel object 0. *)
Definition named_world : world :=
  World (<[1 := 1]> ∅) {[1]} (<[1 := 0]> ∅)
        (<[0 := KSem 3 INT_MAX (String.append Global_prefix "x") 1]> ∅)
        (<[String.append Global_prefix "x" := 0]> ∅) 0 None 0 false None.

(** A world with one live semaphore: the wrapper cell at address 1 holds the
    handle 5 of an anonymous object with counter 3 and bound 10; address 2
    is an [int] of the caller. *)
Definition probe_world : world :=
  World (<[1 := 5]> (<[2 := 0]> ∅)) ∅ (<[5 := 0]> ∅)
        (<[0 := KSem 3 10 EmptyString 1]> ∅) ∅ 0 None 0 false None.

(** A string of [n] letters a. *)
Fixpoint padding (n : nat) : string :=
  match n with
  | O => EmptyString
  | S n' => String "a" (padding n')
  end.

(** A name of 2^32 + 1 bytes. *)
Definition overlong_name : string := padding (S (Z.to_nat 4294967296)).

(** What [sem_trywait]'s outcome becomes when its would-block failure is
    reported as a timeout instead. *)
Definition as_timed (o : outcome Z) : outcome Z :=
  match o with
  | Ret r w =>
      if (r <? 0) && bool_decide (errno w = Some EAGAIN)
      then Ret r (put_errno ETIMEDOUT w)
      else Ret r w
  | Fault => Fault
  | Blocked => Blocked
  end.

(** A world whose only semaphore, behind the wrapper cell at address 1, has
    a zero counter. *)
Definition drained_world : world :=
  World (<[1 := 5]> ∅) ∅ (<[5 := 0]> ∅)
        (<[0 := KSem 0 10 EmptyString 1]> ∅) ∅ 0 None 1000 false None.

(** A world whose only semaphore, behind the wrapper cell at address 1, is
    at its maximum. *)
Definition full_world : world :=
  World (<[1 := 5]> ∅) ∅ (<[5 := 0]> ∅)
        (<[0 := KSem 10 10 EmptyString 1]> ∅) ∅ 0 None 0 false None.

(** A world in which the cell at address 1 holds a value, 99, that is not an
    open handle. *)
Definition stale_world : world :=
  World (<[1 := 99]> ∅) {[1]} ∅ ∅ ∅ 0 None 0 false None.

(** ** Properties of worlds that the routines are checked to keep *)

(** A computation keeps [P] when every run that returns from a world with
    [P] ends in a world with [P]. *)
Definition preserves {A} (P : world -> Prop) (c : M A) : Prop :=
  forall w a w', c w = Ret a w' -> P w -> P w'.

(** Every kernel counter lies between zero and its object's maximum. *)
Definition counters_bounded (w : world) : Prop :=
  map_Forall (fun _ k => 0 <= count k <= maximum k) (objects w).

(** [w] has the memory, the heap blocks, the open handles and the names of
    [w0]. *)
Definition same_resources (w0 w : world) : Prop :=
  mem w = mem w0 /\ heap w = heap w0 /\ handles w = handles w0
  /\ namespace w = namespace w0.

(** The caller's [sem_t] at address 1 and an [int] at address 2, nothing
    else. *)
Definition caller_world : world :=
  World (<[1 := 0]> (<[2 := 0]> ∅)) ∅ ∅ ∅ ∅ 0 None 0 false None.

(** A world with the caller's [sem_t] at address 1 in which the host
    refuses to create objects, with last error [e]. *)
Definition refusing_world (e : Z) : world :=
  World (<[1 := 0]> ∅) ∅ ∅ ∅ ∅ 0 None 0 false (Some e).

(** [named_world] with an [int] of the caller at address 2. *)
Definition named_world_with_int : world :=
  set_mem (<[2 := 0]> (mem named_world)) named_world.

(** Between [w] and [w'] the counter of the object behind the handle [sem],
    and nothing else among the kernel objects, has moved by [d]. *)
Definition counter_moved (d sem : Z) (w w' : world) : Prop :=
  exists h o k,
    mem w !! sem = Some h /\ handles w !! h = Some o /\ objects w !! o = Some k
    /\ objects w' = <[o := set_count (count k + d) k]> (objects w).

(** ** Facts about the integer conversions *)

Lemma to_int_id z : -2147483648 <= z <= INT_MAX -> to_int z = z.
Proof.
  unfold to_int, INT_MAX. intros H.
  rewrite Z.mod_small by lia. lia.
Qed.

Lemma to_uint_id z : 0 <= z < 4294967296 -> to_uint z = z.
Proof. unfold to_uint. intros H. apply Z.mod_small. lia. Qed.

Lemma to_int_range z : -2147483648 <= to_int z <= INT_MAX.
Proof.
  unfold to_int, INT_MAX.
  pose proof (Z.mod_pos_bound (z + 2147483648) 4294967296 ltac:(lia)). lia.
Qed.

(** ** Basic facts about the memory and the host *)

Lemma world_eta (w : world) :
  World (mem w) (heap w) (handles w) (objects w) (namespace w) (last_error w)
        (errno w) (clock w) (calloc_fails w) (create_fault w) = w.
Proof. by destruct w. Qed.

Lemma ksem_eta (k : ksem) : KSem (count k) (maximum k) (kname k) (refs k) = k.
Proof. by destruct k. Qed.

Lemma set_count_id (k : ksem) (c : Z) : c = count k -> set_count c k = k.
Proof. intros ->. apply ksem_eta. Qed.

Lemma set_refs_id (k : ksem) (r : Z) : r = refs k -> set_refs r k = k.
Proof. intros ->. apply ksem_eta. Qed.

Lemma load_ok (w : world) (p v : Z) :
  p <> NULL -> mem w !! p = Some v -> load p w = Ret v w.
Proof.
  intros Hp Hv. unfold load.
  destruct (Z.eqb_spec p NULL) as [E|_]; [contradiction|]. by rewrite Hv.
Qed.

Lemma load_null (w : world) : load NULL w = Fault.
Proof. reflexivity. Qed.

Lemma store_ok (w : world) (p v : Z) :
  p <> NULL -> is_Some (mem w !! p) ->
  store p v w = Ret tt (set_mem (<[p := v]> (mem w)) w).
Proof.
  intros Hp [x Hx]. unfold store.
  destruct (Z.eqb_spec p NULL) as [E|_]; [contradiction|]. by rewrite Hx.
Qed.

Lemma store_unmapped (w : world) (p v : Z) :
  mem w !! p = None -> store p v w = Fault.
Proof.
  intros Hx. unfold store. destruct (p =? NULL); [done|]. by rewrite Hx.
Qed.

Lemma resolve_ok (w : world) (h o : Z) (k : ksem) :
  handles w !! h = Some o -> objects w !! o = Some k ->
  resolve h w = Some (o, k).
Proof. intros Hh Ho. unfold resolve. by rewrite Hh, Ho. Qed.

Lemma resolve_inv (w : world) (h o : Z) (k : ksem) :
  resolve h w = Some (o, k) ->
  handles w !! h = Some o /\ objects w !! o = Some k.
Proof.
  unfold resolve. destruct (handles w !! h) as [o'|]; [|done].
  destruct (objects w !! o') as [k'|] eqn:E; [|done].
  intros [= <- <-]. done.
Qed.

Lemma wait_acquires (w : world) (h ms o : Z) (k : ksem) :
  resolve h w = Some (o, k) -> 0 < count k ->
  WaitForSingleObject h ms w =
    Ret WAIT_OBJECT_0
        (set_objects (<[o := set_count (count k - 1) k]> (objects w)) w).
Proof.
  intros Hr Hc. unfold WaitForSingleObject. rewrite Hr.
  destruct (Z.ltb_spec 0 (count k)); [done|lia].
Qed.

Lemma wait_times_out (w : world) (h ms o : Z) (k : ksem) :
  resolve h w = Some (o, k) -> count k <= 0 -> ms <> INFINITE ->
  WaitForSingleObject h ms w = Ret WAIT_TIMEOUT (set_clock (clock w + ms) w).
Proof.
  intros Hr Hc Hms. unfold WaitForSingleObject. rewrite Hr.
  destruct (Z.ltb_spec 0 (count k)); [lia|].
  destruct (Z.eqb_spec ms INFINITE); [contradiction|done].
Qed.

Lemma wait_invalid (w : world) (h ms : Z) :
  resolve h w = None ->
  WaitForSingleObject h ms w =
    Ret WAIT_FAILED (set_last_error ERROR_INVALID_HANDLE w).
Proof. intros Hr. unfold WaitForSingleObject. by rewrite Hr. Qed.

Lemma release_one (w : world) (h o : Z) (k : ksem) :
  resolve h w = Some (o, k) -> count k < maximum k ->
  ReleaseSemaphore h 1 w =
    Ret (1, count k)
        (set_objects (<[o := set_count (count k + 1) k]> (objects w)) w).
Proof.
  intros Hr Hc. unfold ReleaseSemaphore. rewrite Hr. simpl.
  destruct (Z.ltb_spec (maximum k) (count k + 1)); [lia|done].
Qed.

Lemma release_too_many (w : world) (h o : Z) (k : ksem) :
  resolve h w = Some (o, k) -> maximum k <= count k ->
  ReleaseSemaphore h 1 w =
    Ret (0, 0) (set_last_error ERROR_TOO_MANY_POSTS w).
Proof.
  intros Hr Hc. unfold ReleaseSemaphore. rewrite Hr. simpl.
  destruct (Z.ltb_spec (maximum k) (count k + 1)); [done|lia].
Qed.

Lemma close_invalid (w : world) (h : Z) :
  resolve h w = None ->
  CloseHandle h w = Ret 0 (set_last_error ERROR_INVALID_HANDLE w).
Proof. intros Hr. unfold CloseHandle. by rewrite Hr. Qed.

Lemma close_result (w w1 : world) (h r : Z) :
  CloseHandle h w = Ret r w1 ->
  (r = 0 /\ resolve h w = None /\ w1 = set_last_error ERROR_INVALID_HANDLE w)
  \/ (r = 1 /\ is_Some (resolve h w)).
Proof.
  unfold CloseHandle. destruct (resolve h w) as [[o k]|].
  - destruct (refs k <=? 1); intros [= <- <-]; right; eauto.
  - intros [= <- <-]. by left.
Qed.

(** ** Reading the counter: [sem_getvalue] *)

Lemma probe_restores (w : world) (o : Z) (k : ksem) :
  objects w !! o = Some k ->
  set_objects
    (<[o := set_count (count k - 1 + 1) (set_count (count k - 1) k)]>
       (<[o := set_count (count k - 1) k]> (objects w)))
    (set_objects (<[o := set_count (count k - 1) k]> (objects w)) w) = w.
Proof.
  intros Ho. rewrite insert_insert_eq.
  replace (set_count (count k - 1 + 1) (set_count (count k - 1) k)) with k.
  - rewrite insert_id by done. unfold set_objects; simpl. apply world_eta.
  - destruct k; unfold set_count; simpl. f_equal. lia.
Qed.

Lemma sem_getvalue_reads (w : world) (sem value h o : Z) (k : ksem) :
  sem <> NULL -> mem w !! sem = Some h ->
  handles w !! h = Some o -> objects w !! o = Some k ->
  0 <= count k <= maximum k -> maximum k <= LONG_MAX ->
  value <> NULL -> is_Some (mem w !! value) ->
  sem_getvalue sem value w = Ret 0 (set_mem (<[value := count k]> (mem w)) w).
Proof.
  intros Hsem Hm Hh Ho Hc Hmax Hv Hmv.
  pose proof (resolve_ok w h o k Hh Ho) as Hr.
  unfold sem_getvalue, bind. rewrite (load_ok w sem h) by done.
  destruct (Z.eq_dec (count k) 0) as [Hz|Hnz].
  - rewrite (wait_times_out w h 0 o k) by (done || lia || (unfold INFINITE; lia)).
    simpl. rewrite Z.add_0_r.
    replace (set_clock (clock w) w) with w by (symmetry; apply world_eta).
    rewrite (store_ok w value 0) by done. unfold ret. by rewrite Hz.
  - rewrite (wait_acquires w h 0 o k) by (done || lia). simpl.
    set (w1 := set_objects _ w).
    assert (Hr1 : resolve h w1 = Some (o, set_count (count k - 1) k)).
    { apply resolve_ok; [done|]. subst w1; simpl. apply lookup_insert_eq. }
    rewrite (load_ok w1 sem h) by done.
    rewrite (release_one w1 h o _ Hr1) by (simpl; lia). simpl.
    subst w1. rewrite probe_restores by done.
    rewrite to_int_id by (unfold INT_MAX, LONG_MAX in *; lia).
    rewrite (store_ok w value) by done. unfold ret.
    by replace (count k - 1 + 1) with (count k) by lia.
Qed.

(** C1. [sem_getvalue] observes the counter without changing it.  On a live
    handle whose counter is positive the zero-timeout wait succeeds, the
    release that follows reports the decremented count as previous count and
    brings the world back to what it was; the value stored is that previous
    count plus one, the counter before the call.  On a zero counter the wait
    times out at once and 0 is stored.  In both cases the call returns 0 and
    changes nothing but the cell [value] points to, so a second call, on an
    out-cell other than the semaphore itself, stores the same value again. *)
Theorem sem_getvalue_pure_observer (w : world) (sem value h o : Z) (k : ksem) :
  sem <> NULL -> mem w !! sem = Some h ->
  handles w !! h = Some o -> objects w !! o = Some k ->
  0 <= count k <= maximum k -> maximum k <= LONG_MAX ->
  value <> NULL -> is_Some (mem w !! value) ->
  let w' := set_mem (<[value := count k]> (mem w)) w in
  (0 < count k ->
     exists w1, WaitForSingleObject h 0 w = Ret WAIT_OBJECT_0 w1
                /\ ReleaseSemaphore h 1 w1 = Ret (1, count k - 1) w)
  /\ (count k = 0 -> WaitForSingleObject h 0 w = Ret WAIT_TIMEOUT w)
  /\ sem_getvalue sem value w = Ret 0 w'
  /\ objects w' = objects w
  /\ mem w' !! value = Some (count k)
  /\ (value <> sem -> sem_getvalue sem value w' = Ret 0 w').
Proof.
  intros Hsem Hm Hh Ho Hc Hmax Hv Hmv w'.
  pose proof (resolve_ok w h o k Hh Ho) as Hr.
  split; [|split; [|split; [|split; [|split]]]].
  - intros Hpos. eexists. split; [by apply (wait_acquires w h 0 o k)|].
    set (w1 := set_objects _ w).
    assert (Hr1 : resolve h w1 = Some (o, set_count (count k - 1) k)).
    { apply resolve_ok; [done|]. subst w1; simpl. apply lookup_insert_eq. }
    rewrite (release_one w1 h o _ Hr1) by (simpl; lia). simpl.
    subst w1. by rewrite probe_restores.
  - intros Hz. rewrite (wait_times_out w h 0 o k) by (done || lia).
    rewrite Z.add_0_r. f_equal. apply world_eta.
  - by apply (sem_getvalue_reads w sem value h o k).
  - done.
  - subst w'; simpl. apply lookup_insert_eq.
  - intros Hne.
    rewrite (sem_getvalue_reads w' sem value h o k); try done.
    + subst w'. unfold set_mem; simpl. by rewrite insert_insert_eq.
    + subst w'; simpl. by rewrite lookup_insert_ne.
    + subst w'; simpl. rewrite lookup_insert_eq. eauto.
Qed.

Lemma sem_getvalue_pure_observer_witness :
  sem_getvalue 1 2 probe_world
    = Ret 0 (set_mem (<[2 := 3]> (mem probe_world)) probe_world)
  /\ sem_getvalue 1 2 (set_mem (<[2 := 3]> (mem probe_world)) probe_world)
    = Ret 0 (set_mem (<[2 := 3]> (mem probe_world)) probe_world).
Proof.
  destruct (sem_getvalue_pure_observer probe_world 1 2 5 0
              (KSem 3 10 EmptyString 1))
    as (_ & _ & H1 & _ & _ & H2);
    [ discriminate | reflexivity | reflexivity | reflexivity
    | simpl; lia | simpl; unfold LONG_MAX; lia | discriminate
    | vm_compute; eauto | ].
  split; [exact H1 | apply H2; discriminate].
Defined.

(** ** Null handles *)

(** C2. Five of the six routines that take a handle test it and fail with
    [EINVAL] on [NULL], touching nothing but [errno]; [sem_getvalue] has no
    such test and reads [pv->handle] through the null pointer. *)
Theorem null_handle_unchecked_in_sem_getvalue (w : world) (t : timespec) (value : Z) :
  sem_wait NULL w = Ret (-1) (put_errno EINVAL w)
  /\ sem_trywait NULL w = Ret (-1) (put_errno EINVAL w)
  /\ sem_timedwait NULL t w = Ret (-1) (put_errno EINVAL w)
  /\ sem_post NULL w = Ret (-1) (put_errno EINVAL w)
  /\ sem_destroy NULL w = Ret (-1) (put_errno EINVAL w)
  /\ sem_close NULL w = Ret (-1) (put_errno EINVAL w)
  /\ sem_getvalue NULL value w = Fault.
Proof. repeat split. Qed.

(** ** Fresh addresses, handles and objects *)

Lemma new_block_fresh (w : world) :
  new_block w <> NULL /\ mem w !! new_block w = None /\ new_block w ∉ heap w.
Proof.
  pose proof (is_fresh (dom (mem w) ∪ heap w ∪ {[NULL]})) as H.
  fold (new_block w) in H.
  rewrite !elem_of_union, elem_of_singleton in H.
  split; [|split].
  - intros E. apply H. by right.
  - apply not_elem_of_dom. intros Hin. apply H. by left; left.
  - intros Hin. apply H. by left; right.
Qed.

Lemma new_handle_fresh (w : world) :
  new_handle w <> NULL /\ handles w !! new_handle w = None.
Proof.
  pose proof (is_fresh (dom (handles w) ∪ {[NULL]})) as H.
  fold (new_handle w) in H.
  rewrite elem_of_union, elem_of_singleton in H.
  split.
  - intros E. apply H. by right.
  - apply not_elem_of_dom. intros Hin. apply H. by left.
Qed.

Lemma new_object_fresh (w : world) : objects w !! new_object w = None.
Proof.
  apply not_elem_of_dom. exact (is_fresh (dom (objects w))).
Qed.

Lemma substring_all (s : string) : substring 0 (String.length s) s = s.
Proof. induction s as [|c s IH]; simpl; [done|]. by rewrite IH. Qed.

Lemma buffer_text_nonempty (s : string) : buffer_text s <> EmptyString.
Proof. discriminate. Qed.

(** A name whose length an [int] holds reaches the buffer whole. *)
Lemma buffer_text_whole (s : string) :
  strlen s <= INT_MAX -> buffer_text s = String.append Global_prefix s.
Proof.
  intros Hs. unfold buffer_text.
  rewrite to_int_id by (unfold strlen in *; lia).
  unfold strlen. by rewrite Nat2Z.id, substring_all.
Qed.

Lemma wrapper_released (m : gmap Z Z) (pv a b : Z) :
  m !! pv = None -> delete pv (<[pv := a]> (<[pv := b]> m)) = m.
Proof. intros H. rewrite !delete_insert_eq. by apply delete_id. Qed.

Lemma block_released (s : gset Z) (pv : Z) :
  pv ∉ s -> ({[pv]} ∪ s) ∖ {[pv]} = s.
Proof.
  intros Hpv. apply set_eq. intros x.
  rewrite elem_of_difference, elem_of_union, !elem_of_singleton.
  split.
  - by intros [[->|Hx] Hne].
  - intros Hx. split; [by right|]. by intros ->.
Qed.

Ltac world_simpl :=
  cbn [mem heap handles objects namespace last_error errno clock
       calloc_fails create_fault set_mem set_heap set_handles set_objects
       set_namespace set_last_error put_errno set_clock].

Lemma create_refused (w : world) (init max e : Z) (name : string) :
  create_fault w = Some e ->
  CreateSemaphore init max name w = Ret NULL (set_last_error e w).
Proof. intros H. unfold CreateSemaphore. by rewrite H. Qed.

Lemma create_fresh (w : world) (init max : Z) (name : string) :
  create_fault w = None -> 0 <= init <= max -> 0 < max ->
  name <> EmptyString -> existing name w = None ->
  CreateSemaphore init max name w =
    Ret (new_handle w)
      (set_last_error ERROR_SUCCESS
        (set_namespace (<[name := new_object w]> (namespace w))
          (set_objects (<[new_object w := KSem init max name 1]> (objects w))
            (set_handles (<[new_handle w := new_object w]> (handles w)) w)))).
Proof.
  intros Hf Hi Hm Hn He. unfold CreateSemaphore. rewrite Hf, He.
  destruct (Z.ltb_spec init 0); [lia|].
  destruct (Z.leb_spec max 0); [lia|].
  destruct (Z.ltb_spec max init); [lia|].
  cbv beta iota zeta delta [orb].
  by rewrite bool_decide_eq_false_2.
Qed.

Lemma create_existing (w : world) (init max o : Z) (k : ksem) (name : string) :
  create_fault w = None -> 0 <= init <= max -> 0 < max ->
  existing name w = Some (o, k) ->
  CreateSemaphore init max name w =
    Ret (new_handle w)
      (set_last_error ERROR_ALREADY_EXISTS
        (set_objects (<[o := set_refs (refs k + 1) k]> (objects w))
          (set_handles (<[new_handle w := o]> (handles w)) w))).
Proof.
  intros Hf Hi Hm He. unfold CreateSemaphore. rewrite Hf, He.
  destruct (Z.ltb_spec init 0); [lia|].
  destruct (Z.leb_spec max 0); [lia|].
  destruct (Z.ltb_spec max init); [lia|].
  reflexivity.
Qed.

(** A successful [CreateSemaphore] reports [ERROR_ALREADY_EXISTS] exactly
    when the name was taken. *)
Lemma create_reports_existing (w w' : world) (init max h : Z) (name : string) :
  CreateSemaphore init max name w = Ret h w' -> h <> NULL ->
  (last_error w' = ERROR_ALREADY_EXISTS <-> is_Some (existing name w)).
Proof.
  unfold CreateSemaphore.
  destruct (create_fault w); [by intros [= <- <-]|].
  destruct ((init <? 0) || (max <=? 0) || (max <? init)); [by intros [= <- <-]|].
  destruct (existing name w) as [[o k]|]; intros [= <- <-] _; world_simpl.
  - split; eauto.
  - split; [discriminate|]. by intros [x Hx].
Qed.

Lemma free_ok (w : world) (p : Z) :
  p <> NULL -> p ∈ heap w ->
  free p w = Ret tt (set_heap (heap w ∖ {[p]}) (set_mem (delete p (mem w)) w)).
Proof.
  intros Hp Hin. unfold free.
  destruct (Z.eqb_spec p NULL); [done|]. by rewrite bool_decide_eq_true_2.
Qed.

Lemma free_foreign (w : world) (p : Z) :
  p <> NULL -> p ∉ heap w -> free p w = Fault.
Proof.
  intros Hp Hin. unfold free.
  destruct (Z.eqb_spec p NULL); [done|]. by rewrite bool_decide_eq_false_2.
Qed.

(** ** Opening a named semaphore: [sem_open] *)

Section SemOpenFacts.

Variable SEM_VALUE_MAX : Z.
Hypothesis SEM_VALUE_MAX_range : 0 < SEM_VALUE_MAX <= INT_MAX.

(** The first steps of [sem_open] on a well-formed request: the checks pass
    and the wrapper is allocated. *)
Ltac sem_open_enter w s value :=
  pose proof SEM_VALUE_MAX_range as Hrange; unfold INT_MAX in Hrange;
  unfold sem_open;
  rewrite (to_uint_id SEM_VALUE_MAX) by lia;
  destruct (Z.ltb_spec SEM_VALUE_MAX value) as [?|_]; [lia|];
  rewrite (to_int_id value) by (unfold INT_MAX; lia);
  rewrite (to_int_id SEM_VALUE_MAX) by (unfold INT_MAX; lia);
  change (to_int sizeof_buffer - 8) with 504;
  destruct (Z.ltb_spec 504 (to_int (strlen s))) as [?|_]; [lia|];
  destruct (Z.ltb_spec (to_int (strlen s)) 1) as [?|_]; [lia|];
  cbv beta iota zeta delta [orb];
  change (String.append Global_prefix
            (substring 0 (Z.to_nat (to_int (strlen s))) s))
    with (buffer_text s);
  unfold bind at 1; unfold calloc;
  match goal with H : calloc_fails w = false |- _ => rewrite H end;
  cbv beta iota zeta;
  destruct (Z.eqb_spec (new_block w) NULL) as [?|_]; [done|].

(** The world after [sem_open] has returned through the branch
    [if (!(oflag & O_CREAT))] of a fresh creation. *)
Lemma sem_open_not_found_path (w : world) (s : string) (oflag mode value : Z) :
  0 <= value <= SEM_VALUE_MAX ->
  1 <= to_int (strlen s) <= 504 ->
  calloc_fails w = false -> create_fault w = None ->
  existing (buffer_text s) w = None ->
  Z.land oflag O_CREAT = 0 ->
  sem_open SEM_VALUE_MAX (Some s) oflag mode value w =
    Ret NULL
      (put_errno ENOENT
        (set_last_error ERROR_SUCCESS
          (set_namespace
             (<[buffer_text s := new_object w]> (namespace w))
             (set_objects
                (<[new_object w :=
                     KSem value SEM_VALUE_MAX (buffer_text s) 1]>
                   (objects w))
                (set_handles (<[new_handle w := new_object w]> (handles w)) w))))).
Proof.
  intros Hv Hs Hc Hf He Ho.
  destruct (new_block_fresh w) as (Hb0 & Hbm & Hbh).
  destruct (new_handle_fresh w) as (Hh0 & Hhm).
  sem_open_enter w s value.
  set (w1 := set_heap _ _).
  unfold bind at 1.
  rewrite (create_fresh w1) by (done || lia).
  change (new_handle w1) with (new_handle w).
  change (new_object w1) with (new_object w).
  cbv beta iota zeta. unfold bind at 1.
  rewrite store_ok; [|done|subst w1; world_simpl; rewrite lookup_insert_eq; eauto].
  cbv beta iota zeta.
  destruct (Z.eqb_spec (new_handle w) NULL) as [?|_]; [done|].
  unfold bind at 1, GetLastError. world_simpl.
  change (ERROR_SUCCESS =? ERROR_ALREADY_EXISTS) with false.
  cbv beta iota zeta. rewrite Ho. change (0 =? 0) with true. cbv beta iota.
  unfold bind at 1.
  rewrite free_ok;
    [|done|subst w1; world_simpl; by apply elem_of_union_l, elem_of_singleton].
  cbv beta iota zeta. unfold bind, set_errno, ret.
  f_equal. subst w1. unfold put_errno. world_simpl.
  rewrite wrapper_released, block_released by done. reflexivity.
Qed.

(** C4. With both [O_CREAT] and [O_EXCL] set, when the name is already
    taken (so that [CreateSemaphore] hands out a reference and reports
    [ERROR_ALREADY_EXISTS]), [sem_open] closes that reference, frees the
    wrapper and returns [NULL] with [errno] set to [EEXIST]: memory, heap and
    handle table are what they were before the call, and so is the kernel
    object when it had a reference to begin with. *)
Theorem sem_open_exclusive_conflict (w : world) (s : string)
      (oflag mode value o : Z) (k : ksem) :
  0 <= value <= SEM_VALUE_MAX ->
  1 <= to_int (strlen s) <= 504 ->
  calloc_fails w = false -> create_fault w = None ->
  existing (buffer_text s) w = Some (o, k) ->
  Z.land oflag O_CREAT <> 0 -> Z.land oflag O_EXCL <> 0 ->
  exists w',
    sem_open SEM_VALUE_MAX (Some s) oflag mode value w = Ret NULL w'
    /\ errno w' = Some EEXIST
    /\ mem w' = mem w /\ heap w' = heap w /\ handles w' = handles w
    /\ (1 <= refs k -> objects w' = objects w /\ namespace w' = namespace w).
Proof.
  intros Hv Hs Hc Hf He Hoc Hox.
  destruct (new_block_fresh w) as (Hb0 & Hbm & Hbh).
  destruct (new_handle_fresh w) as (Hh0 & Hhm).
  sem_open_enter w s value.
  set (w1 := set_heap _ _).
  unfold bind at 1.
  rewrite (create_existing w1 _ _ o k) by (done || lia).
  change (new_handle w1) with (new_handle w).
  cbv beta iota zeta. unfold bind at 1.
  rewrite store_ok; [|done|subst w1; world_simpl; rewrite lookup_insert_eq; eauto].
  cbv beta iota zeta.
  destruct (Z.eqb_spec (new_handle w) NULL) as [?|_]; [done|].
  unfold bind at 1, GetLastError. world_simpl.
  change (ERROR_ALREADY_EXISTS =? ERROR_ALREADY_EXISTS) with true.
  cbv beta iota zeta.
  destruct (Z.eqb_spec (Z.land oflag O_CREAT) 0) as [?|_]; [done|].
  destruct (Z.eqb_spec (Z.land oflag O_EXCL) 0) as [?|_]; [done|].
  cbv beta iota zeta delta [negb andb].
  unfold bind at 1.
  rewrite (load_ok _ _ (new_handle w));
    [|done|world_simpl; apply lookup_insert_eq].
  assert (Ho : objects w !! o = Some k).
  { revert He. unfold existing. case_bool_decide; [done|].
    destruct (namespace w !! _) as [o'|]; [|done].
    destruct (objects w !! o') as [k'|] eqn:E; [|done]. by intros [= <- <-]. }
  unfold bind at 1, CloseHandle, resolve. world_simpl.
  rewrite !lookup_insert_eq.
  assert (Hfree : forall w2 : world,
            heap w2 = heap w1 -> mem w2 = <[new_block w := new_handle w]> (mem w1) ->
            exists w3, free (new_block w) w2 = Ret tt w3
              /\ w3 = set_heap (heap w) (set_mem (mem w) w2)).
  { intros w2 Hh2 Hm2. eexists. split.
    - apply free_ok; [done|]. rewrite Hh2. subst w1; world_simpl.
      by apply elem_of_union_l, elem_of_singleton.
    - rewrite Hh2, Hm2. subst w1. world_simpl.
      by rewrite wrapper_released, block_released. }
  change (refs (set_refs (refs k + 1) k)) with (refs k + 1).
  destruct (Z.leb_spec (refs k + 1) 1) as [Hr|Hr]; cbv beta iota;
    (match goal with |- context [bind (free _) _ ?w2] =>
       destruct (Hfree w2 eq_refl eq_refl) as (w3 & Hw3 & ->) end);
    (eexists; split;
       [unfold bind; rewrite Hw3; unfold set_errno, ret; reflexivity|]);
    subst w1; world_simpl; rewrite delete_insert_eq, (delete_id _ _ Hhm).
  - repeat split; try done. all: lia.
  - repeat split; try done.
    rewrite insert_insert_eq.
    replace (set_refs _ _) with k; [by apply insert_id|].
    destruct k; unfold set_refs; simpl. f_equal. lia.
Qed.

(** C5. Without [O_CREAT], when no object carries the name (so that
    [CreateSemaphore] creates one and does not report
    [ERROR_ALREADY_EXISTS]), [sem_open] frees the wrapper and returns [NULL]
    with [errno] set to [ENOENT]: memory and heap are what they were before
    the call. *)
Theorem sem_open_existing_only_not_found (w : world) (s : string)
      (oflag mode value : Z) :
  0 <= value <= SEM_VALUE_MAX ->
  1 <= to_int (strlen s) <= 504 ->
  calloc_fails w = false -> create_fault w = None ->
  existing (buffer_text s) w = None ->
  Z.land oflag O_CREAT = 0 ->
  exists w',
    sem_open SEM_VALUE_MAX (Some s) oflag mode value w = Ret NULL w'
    /\ errno w' = Some ENOENT
    /\ mem w' = mem w /\ heap w' = heap w.
Proof.
  intros Hv Hs Hc Hf He Ho. eexists. split.
  - by apply sem_open_not_found_path.
  - done.
Qed.

(** C3. The failure path of [sem_open] that follows a fresh creation
    without [O_CREAT] frees the wrapper but never calls [CloseHandle]: the
    handle [CreateSemaphore] returned, absent from the handle table before
    the call, is still open after it, and keeps the object it created, and
    that object's name, alive. *)
Theorem sem_open_not_found_keeps_handle_open (w : world) (s : string)
      (oflag mode value : Z) :
  0 <= value <= SEM_VALUE_MAX ->
  1 <= to_int (strlen s) <= 504 ->
  calloc_fails w = false -> create_fault w = None ->
  existing (buffer_text s) w = None ->
  Z.land oflag O_CREAT = 0 ->
  exists w' h o,
    sem_open SEM_VALUE_MAX (Some s) oflag mode value w = Ret NULL w'
    /\ errno w' = Some ENOENT
    /\ heap w' = heap w
    /\ handles w !! h = None
    /\ handles w' !! h = Some o
    /\ objects w' !! o
         = Some (KSem value SEM_VALUE_MAX (buffer_text s) 1)
    /\ namespace w' !! buffer_text s = Some o.
Proof.
  intros Hv Hs Hc Hf He Ho.
  eexists _, (new_handle w), (new_object w). split.
  - by apply sem_open_not_found_path.
  - world_simpl. repeat split.
    + apply new_handle_fresh.
    + apply lookup_insert_eq.
    + apply lookup_insert_eq.
    + apply lookup_insert_eq.
Qed.

End SemOpenFacts.

Lemma sem_open_exclusive_conflict_witness :
  exists w',
    sem_open INT_MAX (Some "x"%string) (Z.lor O_CREAT O_EXCL) 0 5 named_world
      = Ret NULL w'
    /\ errno w' = Some EEXIST
    /\ mem w' = mem named_world /\ heap w' = heap named_world
    /\ handles w' = handles named_world
    /\ (1 <= 1 -> objects w' = objects named_world
                   /\ namespace w' = namespace named_world).
Proof.
  apply (sem_open_exclusive_conflict INT_MAX ltac:(unfold INT_MAX; lia)
           named_world "x"%string (Z.lor O_CREAT O_EXCL) 0 5 0
           (KSem 3 INT_MAX (String.append Global_prefix "x") 1));
    [ unfold INT_MAX; lia | by vm_compute | reflexivity
    | reflexivity | vm_compute; reflexivity | discriminate | discriminate ].
Defined.

Lemma sem_open_existing_only_not_found_witness :
  exists w',
    sem_open INT_MAX (Some "x"%string) 0 0 3 empty_world = Ret NULL w'
    /\ errno w' = Some ENOENT
    /\ mem w' = mem empty_world /\ heap w' = heap empty_world.
Proof.
  apply (sem_open_existing_only_not_found INT_MAX ltac:(unfold INT_MAX; lia)
           empty_world "x"%string 0 0 3);
    [ unfold INT_MAX; lia | by vm_compute | reflexivity
    | reflexivity | vm_compute; reflexivity | reflexivity ].
Defined.

Lemma sem_open_not_found_keeps_handle_open_witness :
  exists w' h o,
    sem_open INT_MAX (Some "x"%string) 0 0 3 empty_world = Ret NULL w'
    /\ errno w' = Some ENOENT
    /\ heap w' = heap empty_world
    /\ handles empty_world !! h = None
    /\ handles w' !! h = Some o
    /\ objects w' !! o
         = Some (KSem 3 INT_MAX (String.append Global_prefix "x") 1)
    /\ namespace w' !! String.append Global_prefix "x" = Some o.
Proof.
  apply (sem_open_not_found_keeps_handle_open INT_MAX
           ltac:(unfold INT_MAX; lia) empty_world "x"%string 0 0 3);
    [ unfold INT_MAX; lia | by vm_compute | reflexivity
    | reflexivity | vm_compute; reflexivity | reflexivity ].
Defined.

(** The handle left open by a failed open without [O_CREAT] holds the object
    it created: the same call, repeated, now finds the name taken and
    succeeds. *)
Example leaked_handle_satisfies_next_open :
  result ((let* a := sem_open INT_MAX (Some "x"%string) 0 0 3 in
           let* b := sem_open INT_MAX (Some "x"%string) 0 0 3 in
           ret (a, b)) empty_world)
  = Some (NULL, 1).
Proof. vm_compute. reflexivity. Qed.

(** [sem_init] stores the wrapper's address in the caller's [sem_t], while
    the other routines read the native handle from that very cell: after a
    successful [sem_init] on the [sem_t] at address 1, [sem_wait] on it
    waits on the wrapper's address, which is no handle, and fails. *)
Example sem_init_then_sem_wait :
  result ((let* a := sem_init INT_MAX 1 0 3 in
           let* b := sem_wait 1 in
           ret (a, b)) (set_mem (<[1 := 0]> (<[2 := 0]> ∅)) empty_world))
  = Some (0, -1).
Proof. vm_compute. reflexivity. Qed.

(** ** Argument validation: [sem_init] and [sem_open] *)

Lemma sem_init_value_too_large (SEM_VALUE_MAX : Z) (w : world)
      (sem pshared value : Z) :
  0 <= SEM_VALUE_MAX < 4294967296 -> SEM_VALUE_MAX < value ->
  sem_init SEM_VALUE_MAX sem pshared value w = Ret (-1) (put_errno EINVAL w).
Proof.
  intros Hm Hv. unfold sem_init. rewrite to_uint_id by done.
  destruct (Z.ltb_spec SEM_VALUE_MAX value); [|lia].
  by rewrite orb_true_r.
Qed.

Lemma sem_open_value_too_large (SEM_VALUE_MAX : Z) (w : world)
      (name : option string) (oflag mode value : Z) :
  0 <= SEM_VALUE_MAX < 4294967296 -> SEM_VALUE_MAX < value ->
  sem_open SEM_VALUE_MAX name oflag mode value w = Ret NULL (put_errno EINVAL w).
Proof.
  intros Hm Hv. unfold sem_open. rewrite to_uint_id by done.
  by destruct (Z.ltb_spec SEM_VALUE_MAX value); [|lia].
Qed.

Lemma sem_open_bad_length (SEM_VALUE_MAX : Z) (w : world) (s : string)
      (oflag mode value : Z) :
  504 < to_int (strlen s) \/ to_int (strlen s) < 1 ->
  sem_open SEM_VALUE_MAX (Some s) oflag mode value w
    = Ret NULL (put_errno EINVAL w).
Proof.
  intros Hs. unfold sem_open.
  destruct (to_uint SEM_VALUE_MAX <? value); [done|].
  change (to_int sizeof_buffer - 8) with 504.
  destruct (Z.ltb_spec 504 (to_int (strlen s))); [done|].
  destruct (Z.ltb_spec (to_int (strlen s)) 1); [done|lia].
Qed.

Lemma sem_open_empty_name (SEM_VALUE_MAX : Z) (w : world) (oflag mode value : Z) :
  sem_open SEM_VALUE_MAX (Some EmptyString) oflag mode value w
    = Ret NULL (put_errno EINVAL w).
Proof. apply sem_open_bad_length. right. vm_compute. done. Qed.

(** Names that do not fit the 512-byte buffer behind the seven-byte prefix
    and before the terminator are refused, as long as their length still
    fits the [int] it is stored in. *)
Lemma sem_open_name_too_long (SEM_VALUE_MAX : Z) (w : world) (s : string)
      (oflag mode value : Z) :
  sizeof_buffer < 7 + strlen s + 1 -> strlen s <= INT_MAX ->
  sem_open SEM_VALUE_MAX (Some s) oflag mode value w
    = Ret NULL (put_errno EINVAL w).
Proof.
  intros Hs Hi. apply sem_open_bad_length. left.
  unfold sizeof_buffer in Hs.
  rewrite to_int_id; [lia|]. unfold strlen, INT_MAX in *. lia.
Qed.

Lemma padding_length (n : nat) : String.length (padding n) = n.
Proof. induction n as [|n IH]; simpl; [done|]. by rewrite IH. Qed.

Lemma strlen_padding (n : nat) : strlen (padding (S n)) = Z.of_nat n + 1.
Proof. unfold strlen. rewrite padding_length. lia. Qed.

Lemma sem_open_length_wraps (n : nat) (SEM_VALUE_MAX : Z)
      (oflag mode value : Z) (w : world) :
  Z.of_nat n = 4294967296 ->
  sem_open SEM_VALUE_MAX (Some (padding (S n))) oflag mode value w
  = sem_open SEM_VALUE_MAX (Some (String "a" EmptyString)) oflag mode value w.
Proof.
  intros Hn. unfold sem_open.
  rewrite strlen_padding, Hn.
  change (to_int (4294967296 + 1)) with 1.
  change (to_int (strlen (String "a" EmptyString))) with 1.
  change (Z.to_nat 1) with 1%nat.
  replace (substring 0 1 (padding (S n))) with (String "a" EmptyString)
    by (simpl; by destruct (padding n)).
  reflexivity.
Qed.

Lemma overlong_length_fits : Z.of_nat (Z.to_nat 4294967296) = 4294967296.
Proof. apply Z2Nat.id. discriminate. Qed.

(** C6. Both routines refuse an initial value above [SEM_VALUE_MAX], and
    [sem_open] refuses the empty name and every over-long name whose length
    an [int] can hold (lemmas above).  The length of the name is kept in an
    [int], though: where [size_t] is wider than [int], a name of 2^32 + 1
    bytes has [len] equal to 1, passes both tests and is handled like its
    first character alone, down to creating the semaphore. *)
Theorem sem_open_accepts_overlong_name :
  sizeof_buffer < 7 + strlen overlong_name + 1
  /\ (forall SEM_VALUE_MAX oflag mode value w,
        sem_open SEM_VALUE_MAX (Some overlong_name) oflag mode value w
        = sem_open SEM_VALUE_MAX (Some (String "a" EmptyString)) oflag mode value w)
  /\ (exists w',
        sem_open INT_MAX (Some overlong_name) O_CREAT 0 0 empty_world
          = Ret 1 w'
        /\ errno w' = None /\ heap w' = {[1]} /\ handles w' !! 1 = Some 0).
Proof.
  split; [|split].
  - unfold overlong_name. rewrite strlen_padding, overlong_length_fits.
    reflexivity.
  - intros. exact (sem_open_length_wraps _ _ _ _ _ _ overlong_length_fits).
  - unfold overlong_name.
    rewrite (sem_open_length_wraps _ _ _ _ _ _ overlong_length_fits).
    eexists. split; [vm_compute; reflexivity|]. vm_compute. tauto.
Qed.

(** ** Waiting with a deadline: [sem_timedwait] against [sem_trywait] *)

(** C7. Once the deadline has passed the relative wait is zero, and
    [sem_timedwait] does what [sem_trywait] does in the same world: the same
    return value and the same resulting world, except that a zero counter is
    reported as [ETIMEDOUT] where [sem_trywait] reports [EAGAIN]; the call
    does not block and the clock does not move. *)
Theorem sem_timedwait_past_deadline (w : world) (sem : Z) (abs_timeout : timespec) :
  timespec_ms abs_timeout <= clock w ->
  sem_timedwait sem abs_timeout w = as_timed (sem_trywait sem w)
  /\ sem_timedwait sem abs_timeout w <> Blocked
  /\ sem_trywait sem w <> Blocked
  /\ (forall r w', sem_timedwait sem abs_timeout w = Ret r w' -> clock w' = clock w).
Proof.
  intros Hpast.
  assert (Hms : Z.max 0 (timespec_ms abs_timeout - clock w) = 0) by lia.
  unfold sem_timedwait, sem_trywait.
  destruct (sem =? NULL) eqn:Hnull; cbv beta iota zeta delta [orb].
  { repeat split; try done. by intros r w' [= <- <-]. }
  unfold bind, load. rewrite Hnull.
  destruct (mem w !! sem) as [h|]; [|by repeat split].
  unfold arch_rel_time_in_ms. rewrite Hms. change (to_uint 0) with 0.
  unfold WaitForSingleObject.
  destruct (resolve h w) as [[o k]|].
  - destruct (0 <? count k).
    + repeat split; try done. by intros r w' [= <- <-].
    + change (0 =? INFINITE) with false. cbv beta iota.
      change (WAIT_TIMEOUT =? WAIT_OBJECT_0) with false.
      change (WAIT_TIMEOUT =? WAIT_TIMEOUT) with true.
      repeat split; try done. intros r w' [= <- <-]. simpl. lia.
  - repeat split; try done. by intros r w' [= <- <-].
Qed.

Lemma sem_timedwait_past_deadline_witness :
  sem_timedwait 1 (Timespec 0 999000000) drained_world
    = as_timed (sem_trywait 1 drained_world)
  /\ sem_timedwait 1 (Timespec 0 999000000) drained_world
     = Ret (-1) (put_errno ETIMEDOUT drained_world)
  /\ sem_trywait 1 drained_world = Ret (-1) (put_errno EAGAIN drained_world).
Proof.
  split; [|split].
  - apply (sem_timedwait_past_deadline drained_world 1 (Timespec 0 999000000)).
    vm_compute. discriminate.
  - reflexivity.
  - reflexivity.
Defined.

(** ** Posting: [sem_post] *)

(** On a handle whose cell holds a live native handle: at the object's
    maximum [sem_post] returns -1 with [errno] set to [EOVERFLOW] and leaves
    every kernel object as it was; below the maximum it returns 0 and the
    counter grows by exactly one. *)
Theorem sem_post_live_handle (w : world) (sem h o : Z) (k : ksem) :
  sem <> NULL -> mem w !! sem = Some h ->
  handles w !! h = Some o -> objects w !! o = Some k ->
  (maximum k <= count k ->
     sem_post sem w
       = Ret (-1) (put_errno EOVERFLOW (set_last_error ERROR_TOO_MANY_POSTS w))
     /\ objects (put_errno EOVERFLOW (set_last_error ERROR_TOO_MANY_POSTS w)) !! o
        = Some k)
  /\ (count k < maximum k ->
        sem_post sem w
          = Ret 0 (set_objects (<[o := set_count (count k + 1) k]> (objects w)) w)).
Proof.
  intros Hsem Hm Hh Ho.
  pose proof (resolve_ok w h o k Hh Ho) as Hr.
  assert (Hnull : (sem =? NULL) = false) by by apply Z.eqb_neq.
  split; intros Hc; unfold sem_post; rewrite Hnull;
    cbv beta iota zeta delta [orb];
    unfold bind; rewrite (load_ok w sem h) by done.
  - by rewrite (release_too_many w h o k).
  - by rewrite (release_one w h o k).
Qed.

Lemma sem_post_live_handle_witness :
  sem_post 1 full_world
    = Ret (-1) (put_errno EOVERFLOW (set_last_error ERROR_TOO_MANY_POSTS full_world))
  /\ sem_post 1 drained_world
    = Ret 0 (set_objects (<[0 := KSem 1 10 EmptyString 1]> (objects drained_world))
                         drained_world).
Proof.
  split.
  - apply (sem_post_live_handle full_world 1 5 0 (KSem 10 10 EmptyString 1));
      [discriminate | reflexivity | reflexivity | reflexivity | simpl; lia].
  - apply (sem_post_live_handle drained_world 1 5 0 (KSem 0 10 EmptyString 1));
      [discriminate | reflexivity | reflexivity | reflexivity | simpl; lia].
Defined.

(** ** Destroying: [sem_destroy] *)

(** Once [CloseHandle] has succeeded, [free(pv)] releases the block at the
    address [sem] itself ([pv] is [sem], not [*sem]), and [*sem = NULL] then
    stores into that released block. *)
Lemma sem_destroy_live_handle (w : world) (sem h : Z) :
  sem <> NULL -> mem w !! sem = Some h -> is_Some (resolve h w) ->
  sem_destroy sem w = Fault.
Proof.
  intros Hsem Hm [[o k] Hr].
  unfold sem_destroy. cbv zeta.
  destruct (Z.eqb_spec sem NULL) as [?|_]; [done|].
  unfold bind. rewrite (load_ok w sem h) by done.
  unfold CloseHandle. rewrite Hr. cbv zeta.
  destruct (refs k <=? 1); change (1 =? 0) with false; cbv beta iota.
  - match goal with |- context [free sem ?w2] =>
      destruct (decide (sem ∈ heap w2)) as [Hin|Hout];
      [ rewrite (free_ok w2 sem Hsem Hin), store_unmapped;
          [done | world_simpl; apply lookup_delete_eq]
      | by rewrite (free_foreign w2 sem Hsem Hout) ] end.
  - match goal with |- context [free sem ?w2] =>
      destruct (decide (sem ∈ heap w2)) as [Hin|Hout];
      [ rewrite (free_ok w2 sem Hsem Hin), store_unmapped;
          [done | world_simpl; apply lookup_delete_eq]
      | by rewrite (free_foreign w2 sem Hsem Hout) ] end.
Qed.

Lemma sem_destroy_dead_handle (w : world) (sem h : Z) :
  sem <> NULL -> mem w !! sem = Some h -> resolve h w = None ->
  sem_destroy sem w
    = Ret (-1) (put_errno EINVAL (set_last_error ERROR_INVALID_HANDLE w)).
Proof.
  intros Hsem Hm Hr.
  unfold sem_destroy. cbv zeta.
  destruct (Z.eqb_spec sem NULL) as [?|_]; [done|].
  unfold bind. rewrite (load_ok w sem h) by done.
  by rewrite close_invalid.
Qed.

(** C9. [sem_destroy] never returns 0.  It frees [pv], which is the pointer
    [sem] itself, and then writes [NULL] through [sem]: on every run that
    gets past [CloseHandle] the store lands in the block that was just
    released (or the pointer was not a heap block and the [free] itself is
    invalid).  Every call either has undefined behaviour or returns -1 with
    [EINVAL] and memory untouched; on the handle [sem_open] has
    just returned it is the former. *)
Theorem sem_destroy_writes_freed_wrapper :
  (forall sem w,
     sem_destroy sem w = Fault
     \/ exists w', sem_destroy sem w = Ret (-1) w'
                   /\ errno w' = Some EINVAL
                   /\ mem w' = mem w /\ heap w' = heap w)
  /\ sem_open INT_MAX (Some (String "x" EmptyString)) O_CREAT 0 3 empty_world
     = Ret 1 named_world
  /\ sem_destroy 1 named_world = Fault
  /\ sem_close 1 named_world = Fault.
Proof.
  split; [|split; [vm_compute; reflexivity|split; reflexivity]].
  intros sem w.
  destruct (Z.eq_dec sem NULL) as [->|Hsem].
  { right. eexists. split; [reflexivity|done]. }
  destruct (mem w !! sem) as [h|] eqn:Hm.
  - destruct (resolve h w) as [[o k]|] eqn:Hr.
    + left. apply (sem_destroy_live_handle w sem h); eauto.
    + right. eexists. split; [by apply (sem_destroy_dead_handle w sem h)|done].
  - left. unfold sem_destroy. cbv zeta.
    destruct (Z.eqb_spec sem NULL) as [?|_]; [done|].
    unfold bind, load.
    destruct (Z.eqb_spec sem NULL) as [?|_]; [done|]. by rewrite Hm.
Qed.

(** C10. When [CloseHandle] fails, [sem_destroy] returns -1 with [errno] set
    to [EINVAL] before it reaches [free] and the store: memory (the caller's
    handle cell included), heap, handle table and kernel objects are what
    they were before the call. *)
Theorem sem_destroy_close_failure (w w1 : world) (sem h : Z) :
  sem <> NULL -> mem w !! sem = Some h ->
  CloseHandle h w = Ret 0 w1 ->
  sem_destroy sem w = Ret (-1) (put_errno EINVAL w1)
  /\ mem (put_errno EINVAL w1) = mem w
  /\ heap (put_errno EINVAL w1) = heap w
  /\ handles (put_errno EINVAL w1) = handles w
  /\ objects (put_errno EINVAL w1) = objects w
  /\ mem (put_errno EINVAL w1) !! sem = Some h.
Proof.
  intros Hsem Hm Hclose.
  destruct (close_result w w1 h 0 Hclose) as [(_ & Hr & ->)|(H10 & _)];
    [|discriminate].
  split; [|by repeat split].
  unfold sem_destroy. cbv zeta.
  destruct (Z.eqb_spec sem NULL) as [?|_]; [done|].
  unfold bind. rewrite (load_ok w sem h) by done.
  by rewrite Hclose.
Qed.

Lemma sem_destroy_close_failure_witness :
  sem_destroy 1 stale_world
    = Ret (-1) (put_errno EINVAL (set_last_error ERROR_INVALID_HANDLE stale_world))
  /\ heap (put_errno EINVAL (set_last_error ERROR_INVALID_HANDLE stale_world))
     = heap stale_world.
Proof.
  destruct (sem_destroy_close_failure stale_world
              (set_last_error ERROR_INVALID_HANDLE stale_world) 1 99)
    as (H1 & _ & H2 & _);
    [discriminate | reflexivity | reflexivity |].
  split; [exact H1 | exact H2].
Defined.

(** ** Acquiring and releasing on a live handle *)

(** The first steps shared by the routines that start with the null test and
    read [pv->handle]. *)
Ltac enter_handle Hsem Hm :=
  cbv zeta; rewrite (proj2 (Z.eqb_neq _ _) Hsem);
  cbv beta iota zeta delta [orb];
  unfold bind at 1; rewrite (load_ok _ _ _ Hsem Hm); cbv beta iota.

(** [sem_wait] on a live handle: a positive counter is decremented by one
    and the call returns 0, changing nothing else; on a zero counter the
    call does not return, since it waits without a timeout. *)
Theorem sem_wait_live (w : world) (sem h o : Z) (k : ksem) :
  sem <> NULL -> mem w !! sem = Some h ->
  handles w !! h = Some o -> objects w !! o = Some k ->
  (0 < count k ->
     sem_wait sem w
       = Ret 0 (set_objects (<[o := set_count (count k - 1) k]> (objects w)) w))
  /\ (count k <= 0 -> sem_wait sem w = Blocked).
Proof.
  intros Hsem Hm Hh Ho.
  pose proof (resolve_ok w h o k Hh Ho) as Hr.
  split; intros Hc; unfold sem_wait; enter_handle Hsem Hm; unfold bind.
  - by rewrite (wait_acquires w h INFINITE o k).
  - unfold WaitForSingleObject. rewrite Hr.
    destruct (Z.ltb_spec 0 (count k)); [lia|done].
Qed.

Lemma sem_wait_live_witness :
  sem_wait 1 probe_world
    = Ret 0 (set_objects (<[0 := KSem 2 10 EmptyString 1]> (objects probe_world))
                         probe_world)
  /\ sem_wait 1 drained_world = Blocked.
Proof.
  split.
  - apply (sem_wait_live probe_world 1 5 0 (KSem 3 10 EmptyString 1));
      [discriminate | reflexivity | reflexivity | reflexivity | simpl; lia].
  - apply (sem_wait_live drained_world 1 5 0 (KSem 0 10 EmptyString 1));
      [discriminate | reflexivity | reflexivity | reflexivity | simpl; lia].
Defined.

(** [sem_trywait] on a live handle: a positive counter is decremented by one
    and the call returns 0; on a zero counter it returns -1 at once with
    [errno] set to [EAGAIN], and nothing else in the world changes. *)
Theorem sem_trywait_live (w : world) (sem h o : Z) (k : ksem) :
  sem <> NULL -> mem w !! sem = Some h ->
  handles w !! h = Some o -> objects w !! o = Some k ->
  (0 < count k ->
     sem_trywait sem w
       = Ret 0 (set_objects (<[o := set_count (count k - 1) k]> (objects w)) w))
  /\ (count k <= 0 -> sem_trywait sem w = Ret (-1) (put_errno EAGAIN w)).
Proof.
  intros Hsem Hm Hh Ho.
  pose proof (resolve_ok w h o k Hh Ho) as Hr.
  split; intros Hc; unfold sem_trywait; enter_handle Hsem Hm; unfold bind.
  - by rewrite (wait_acquires w h 0 o k).
  - rewrite (wait_times_out w h 0 o k) by done.
    rewrite Z.add_0_r.
    replace (set_clock (clock w) w) with w by (symmetry; apply world_eta).
    reflexivity.
Qed.

Lemma sem_trywait_live_witness :
  sem_trywait 1 probe_world
    = Ret 0 (set_objects (<[0 := KSem 2 10 EmptyString 1]> (objects probe_world))
                         probe_world)
  /\ sem_trywait 1 drained_world = Ret (-1) (put_errno EAGAIN drained_world).
Proof.
  split.
  - apply (sem_trywait_live probe_world 1 5 0 (KSem 3 10 EmptyString 1));
      [discriminate | reflexivity | reflexivity | reflexivity | simpl; lia].
  - apply (sem_trywait_live drained_world 1 5 0 (KSem 0 10 EmptyString 1));
      [discriminate | reflexivity | reflexivity | reflexivity | simpl; lia].
Defined.

Lemma stale_handle_routines (w : world) (sem h value : Z) (t : timespec) :
  sem <> NULL -> mem w !! sem = Some h -> resolve h w = None ->
  let w' := put_errno EINVAL (set_last_error ERROR_INVALID_HANDLE w) in
  sem_wait sem w = Ret (-1) w'
  /\ sem_trywait sem w = Ret (-1) w'
  /\ sem_timedwait sem t w = Ret (-1) w'
  /\ sem_post sem w = Ret (-1) w'
  /\ sem_getvalue sem value w = Ret (-1) w'.
Proof.
  intros Hsem Hm Hr w'. repeat split.
  - unfold sem_wait; enter_handle Hsem Hm; unfold bind.
    by rewrite wait_invalid.
  - unfold sem_trywait; enter_handle Hsem Hm; unfold bind.
    by rewrite wait_invalid.
  - unfold sem_timedwait; enter_handle Hsem Hm; unfold bind.
    unfold arch_rel_time_in_ms. by rewrite wait_invalid.
  - unfold sem_post; enter_handle Hsem Hm; unfold bind.
    unfold ReleaseSemaphore. by rewrite Hr.
  - unfold sem_getvalue. cbv zeta. unfold bind.
    rewrite (load_ok _ _ _ Hsem Hm). by rewrite wait_invalid.
Qed.

(** A handle whose cell holds a value that is no open native handle: every
    waiting, posting or reading routine returns -1 with [errno] set to
    [EINVAL] (never [EAGAIN], [ETIMEDOUT] or [EOVERFLOW]); the counters, the
    memory and the out-cell of [sem_getvalue] are left alone. *)
Theorem stale_handle_is_invalid (w : world) (sem h value : Z) (t : timespec) :
  sem <> NULL -> mem w !! sem = Some h -> resolve h w = None ->
  let w' := put_errno EINVAL (set_last_error ERROR_INVALID_HANDLE w) in
  sem_wait sem w = Ret (-1) w'
  /\ sem_trywait sem w = Ret (-1) w'
  /\ sem_timedwait sem t w = Ret (-1) w'
  /\ sem_post sem w = Ret (-1) w'
  /\ sem_getvalue sem value w = Ret (-1) w'.
Proof.
  intros Hsem Hm Hr w'. repeat split.
  - unfold sem_wait; enter_handle Hsem Hm; unfold bind.
    by rewrite wait_invalid.
  - unfold sem_trywait; enter_handle Hsem Hm; unfold bind.
    by rewrite wait_invalid.
  - unfold sem_timedwait; enter_handle Hsem Hm; unfold bind.
    unfold arch_rel_time_in_ms. by rewrite wait_invalid.
  - unfold sem_post; enter_handle Hsem Hm; unfold bind.
    unfold ReleaseSemaphore. by rewrite Hr.
  - unfold sem_getvalue. cbv zeta. unfold bind.
    rewrite (load_ok _ _ _ Hsem Hm). by rewrite wait_invalid.
Qed.

Lemma stale_handle_is_invalid_witness :
  sem_post 1 stale_world
    = Ret (-1) (put_errno EINVAL (set_last_error ERROR_INVALID_HANDLE stale_world))
  /\ sem_getvalue 1 1 stale_world
    = Ret (-1) (put_errno EINVAL (set_last_error ERROR_INVALID_HANDLE stale_world)).
Proof.
  destruct (stale_handle_is_invalid stale_world 1 99 1 (Timespec 0 0))
    as (_ & _ & _ & H1 & H2);
    [discriminate | reflexivity | reflexivity |].
  split; [exact H1 | exact H2].
Defined.

(** ** How the routines compose on one handle *)

Lemma sem_post_step (w : world) (sem h o : Z) (k : ksem) :
  sem <> NULL -> mem w !! sem = Some h ->
  handles w !! h = Some o -> objects w !! o = Some k ->
  count k < maximum k ->
  sem_post sem w
    = Ret 0 (set_objects (<[o := set_count (count k + 1) k]> (objects w)) w).
Proof.
  intros Hsem Hm Hh Ho Hc.
  pose proof (resolve_ok w h o k Hh Ho) as Hr.
  unfold sem_post; enter_handle Hsem Hm; unfold bind.
  by rewrite (release_one w h o k).
Qed.

Lemma sem_trywait_step (w : world) (sem h o : Z) (k : ksem) :
  sem <> NULL -> mem w !! sem = Some h ->
  handles w !! h = Some o -> objects w !! o = Some k ->
  0 < count k ->
  sem_trywait sem w
    = Ret 0 (set_objects (<[o := set_count (count k - 1) k]> (objects w)) w).
Proof.
  intros Hsem Hm Hh Ho Hc.
  pose proof (resolve_ok w h o k Hh Ho) as Hr.
  unfold sem_trywait; enter_handle Hsem Hm; unfold bind.
  by rewrite (wait_acquires w h 0 o k).
Qed.

Lemma counter_restored (w : world) (o c : Z) (k : ksem) :
  objects w !! o = Some k ->
  set_objects
    (<[o := set_count (count k) (set_count c k)]>
       (<[o := set_count c k]> (objects w)))
    (set_objects (<[o := set_count c k]> (objects w)) w) = w.
Proof.
  intros Ho. rewrite insert_insert_eq.
  replace (set_count (count k) (set_count c k)) with k by by destruct k.
  rewrite insert_id by done. unfold set_objects; simpl. apply world_eta.
Qed.

(** Posting and acquiring undo each other: on a live handle below its
    maximum, [sem_post] followed by [sem_trywait] returns 0 twice and gives
    back the very world it started from; so does [sem_trywait] followed by
    [sem_post] on a positive counter. *)
Theorem post_and_trywait_cancel (w : world) (sem h o : Z) (k : ksem) :
  sem <> NULL -> mem w !! sem = Some h ->
  handles w !! h = Some o -> objects w !! o = Some k ->
  (0 <= count k < maximum k ->
     (let* a := sem_post sem in let* b := sem_trywait sem in ret (a, b)) w
       = Ret (0, 0) w)
  /\ (0 < count k <= maximum k ->
        (let* a := sem_trywait sem in let* b := sem_post sem in ret (a, b)) w
          = Ret (0, 0) w).
Proof.
  intros Hsem Hm Hh Ho. split; intros Hc.
  - unfold bind at 1. rewrite (sem_post_step w sem h o k) by (done || lia).
    unfold bind.
    rewrite (sem_trywait_step _ sem h o (set_count (count k + 1) k));
      [|done|done|done|world_simpl; apply lookup_insert_eq|simpl; lia].
    unfold ret. f_equal. simpl count.
    replace (count k + 1 - 1) with (count k) by lia.
    by apply counter_restored.
  - unfold bind at 1. rewrite (sem_trywait_step w sem h o k) by (done || lia).
    unfold bind.
    rewrite (sem_post_step _ sem h o (set_count (count k - 1) k));
      [|done|done|done|world_simpl; apply lookup_insert_eq|simpl; lia].
    unfold ret. f_equal. simpl count.
    replace (count k - 1 + 1) with (count k) by lia.
    by apply counter_restored.
Qed.

Lemma post_and_trywait_cancel_witness :
  (let* a := sem_post 1 in let* b := sem_trywait 1 in ret (a, b)) probe_world
    = Ret (0, 0) probe_world
  /\ (let* a := sem_trywait 1 in let* b := sem_post 1 in ret (a, b)) full_world
    = Ret (0, 0) full_world.
Proof.
  split.
  - apply (post_and_trywait_cancel probe_world 1 5 0 (KSem 3 10 EmptyString 1));
      [discriminate | reflexivity | reflexivity | reflexivity | simpl; lia].
  - apply (post_and_trywait_cancel full_world 1 5 0 (KSem 10 10 EmptyString 1));
      [discriminate | reflexivity | reflexivity | reflexivity | simpl; lia].
Defined.

(** [sem_getvalue] follows the counter: after a successful [sem_post] it
    stores the old counter plus one, after a successful [sem_trywait] the
    old counter minus one. *)
Theorem sem_getvalue_tracks_counter (w : world) (sem value h o : Z) (k : ksem) :
  sem <> NULL -> mem w !! sem = Some h ->
  handles w !! h = Some o -> objects w !! o = Some k ->
  maximum k <= LONG_MAX ->
  value <> NULL -> is_Some (mem w !! value) ->
  (0 <= count k < maximum k ->
     (let* _ := sem_post sem in sem_getvalue sem value) w
       = Ret 0 (set_mem (<[value := count k + 1]> (mem w))
                  (set_objects (<[o := set_count (count k + 1) k]> (objects w)) w)))
  /\ (0 < count k <= maximum k ->
        (let* _ := sem_trywait sem in sem_getvalue sem value) w
          = Ret 0 (set_mem (<[value := count k - 1]> (mem w))
                     (set_objects (<[o := set_count (count k - 1) k]> (objects w)) w))).
Proof.
  intros Hsem Hm Hh Ho Hmax Hv Hmv. split; intros Hc.
  - unfold bind. rewrite (sem_post_step w sem h o k) by (done || lia).
    rewrite (sem_getvalue_reads _ sem value h o (set_count (count k + 1) k));
      try done.
    + world_simpl. apply lookup_insert_eq.
    + simpl. lia.
  - unfold bind. rewrite (sem_trywait_step w sem h o k) by (done || lia).
    rewrite (sem_getvalue_reads _ sem value h o (set_count (count k - 1) k));
      try done.
    + world_simpl. apply lookup_insert_eq.
    + simpl. lia.
Qed.

Lemma sem_getvalue_tracks_counter_witness :
  (let* _ := sem_post 1 in sem_getvalue 1 2) probe_world
    = Ret 0 (set_mem (<[2 := 4]> (mem probe_world))
               (set_objects (<[0 := KSem 4 10 EmptyString 1]> (objects probe_world))
                            probe_world))
  /\ (let* _ := sem_trywait 1 in sem_getvalue 1 2) probe_world
    = Ret 0 (set_mem (<[2 := 2]> (mem probe_world))
               (set_objects (<[0 := KSem 2 10 EmptyString 1]> (objects probe_world))
                            probe_world)).
Proof.
  destruct (sem_getvalue_tracks_counter probe_world 1 2 5 0
              (KSem 3 10 EmptyString 1)) as (H1 & H2);
    [ discriminate | reflexivity | reflexivity | reflexivity
    | simpl; unfold LONG_MAX; lia | discriminate | vm_compute; eauto | ].
  split; [apply H1 | apply H2]; simpl; lia.
Defined.

(** ** What the routines keep *)

Lemma preserves_ret {A} (P : world -> Prop) (a : A) : preserves P (ret a).
Proof. by intros w a' w' [= <- <-]. Qed.

Lemma preserves_bind {A B} (P : world -> Prop) (c : M A) (k : A -> M B) :
  preserves P c -> (forall a, preserves P (k a)) -> preserves P (bind c k).
Proof.
  intros Hc Hk w b w'. unfold bind.
  destruct (c w) as [a w1| |] eqn:E; [|done|done].
  intros Hkb HP. exact (Hk a w1 b w' Hkb (Hc w a w1 E HP)).
Qed.

Lemma preserves_if {A} (P : world -> Prop) (b : bool) (c1 c2 : M A) :
  preserves P c1 -> preserves P c2 -> preserves P (if b then c1 else c2).
Proof. by destruct b. Qed.

Lemma bounded_lookup (w : world) (h o : Z) (k : ksem) :
  counters_bounded w -> resolve h w = Some (o, k) ->
  0 <= count k <= maximum k.
Proof.
  intros Hw Hr. apply resolve_inv in Hr as [_ Ho]. exact (Hw o k Ho).
Qed.

Lemma probe_world_bounded : counters_bounded probe_world.
Proof.
  unfold counters_bounded, probe_world. world_simpl.
  apply map_Forall_insert_2; [simpl; lia|]. apply map_Forall_empty.
Qed.

(** Whatever [sem_getvalue] returns, in a world whose counters are within
    bounds it leaves every kernel object, the heap, the handle table and the
    namespace as they were, and writes no memory cell other than the one
    [value] points to; when it returns -1 it writes none at all. *)
Theorem sem_getvalue_touches_only_out_cell (w w' : world) (sem value r : Z) :
  counters_bounded w ->
  sem_getvalue sem value w = Ret r w' ->
  objects w' = objects w /\ heap w' = heap w /\ handles w' = handles w
  /\ namespace w' = namespace w
  /\ (forall p, p <> value -> mem w' !! p = mem w !! p)
  /\ (r = -1 -> mem w' = mem w).
Proof.
  intros Hw. unfold sem_getvalue. cbv zeta. unfold bind at 1.
  destruct (load sem w) as [h w0| |] eqn:El; [|done|done].
  assert (w0 = w /\ sem <> NULL /\ mem w !! sem = Some h) as (-> & Hsem & Hm).
  { revert El. unfold load. destruct (Z.eqb_spec sem NULL); [done|].
    destruct (mem w !! sem); [|done]. by intros [= <- <-]. }
  assert (Hst : forall v w1 w2 u,
            store value v w1 = Ret u w2 ->
            objects w2 = objects w1 /\ heap w2 = heap w1
            /\ handles w2 = handles w1 /\ namespace w2 = namespace w1
            /\ (forall p, p <> value -> mem w2 !! p = mem w1 !! p)).
  { intros v w1 w2 u. unfold store. destruct (value =? NULL); [done|].
    destruct (mem w1 !! value); [|done]. intros [= <- <-]. world_simpl.
    repeat split. intros p Hp. by apply lookup_insert_ne. }
  unfold bind at 1.
  destruct (resolve h w) as [[o k]|] eqn:Hr.
  - pose proof (bounded_lookup w h o k Hw Hr) as Hk.
    destruct (Z.le_gt_cases (count k) 0) as [Hz|Hpos].
    + rewrite (wait_times_out w h 0 o k) by done.
      rewrite Z.add_0_r.
      replace (set_clock (clock w) w) with w by (symmetry; apply world_eta).
      change (WAIT_TIMEOUT =? WAIT_OBJECT_0) with false.
      change (WAIT_TIMEOUT =? WAIT_TIMEOUT) with true. cbv beta iota.
      unfold bind. destruct (store value 0 w) as [u w2| |] eqn:Es; [|done|done].
      intros [= <- <-]. destruct (Hst _ _ _ _ Es) as (?&?&?&?&?).
      repeat split; try done.
    + rewrite (wait_acquires w h 0 o k) by (done || lia).
      change (WAIT_OBJECT_0 =? WAIT_OBJECT_0) with true. cbv beta iota.
      set (w1 := set_objects _ w).
      assert (Hr1 : resolve h w1 = Some (o, set_count (count k - 1) k)).
      { apply resolve_inv in Hr as [Hh Ho]. apply resolve_ok; [done|].
        subst w1; world_simpl. apply lookup_insert_eq. }
      unfold bind at 1. rewrite (load_ok w1 sem h) by done.
      unfold bind at 1.
      rewrite (release_one w1 h o _ Hr1) by (simpl; lia). simpl.
      subst w1.
      rewrite probe_restores by (by apply resolve_inv in Hr as [_ Ho]).
      unfold bind.
      destruct (store value _ w) as [u w2| |] eqn:Es; [|done|done].
      intros [= <- <-]. destruct (Hst _ _ _ _ Es) as (?&?&?&?&?).
      repeat split; try done.
  - rewrite wait_invalid by done.
    change (WAIT_FAILED =? WAIT_OBJECT_0) with false.
    change (WAIT_FAILED =? WAIT_TIMEOUT) with false. cbv beta iota.
    by intros [= <- <-].
Qed.

Lemma sem_getvalue_touches_only_out_cell_witness :
  objects (set_mem (<[2 := 3]> (mem probe_world)) probe_world)
    = objects probe_world
  /\ (forall p, p <> 2 ->
        mem (set_mem (<[2 := 3]> (mem probe_world)) probe_world) !! p
          = mem probe_world !! p).
Proof.
  destruct (sem_getvalue_touches_only_out_cell probe_world
              (set_mem (<[2 := 3]> (mem probe_world)) probe_world) 1 2 0
              probe_world_bounded eq_refl)
    as (H1 & _ & _ & _ & H2 & _).
  split; [exact H1 | exact H2].
Defined.

Lemma resources_by_fields {A} (w0 : world) (c : M A) :
  (forall w a w', c w = Ret a w' ->
     mem w' = mem w /\ heap w' = heap w /\ handles w' = handles w
     /\ namespace w' = namespace w) ->
  preserves (same_resources w0) c.
Proof.
  intros Hc w a w' E (H1 & H2 & H3 & H4).
  destruct (Hc w a w' E) as (E1 & E2 & E3 & E4).
  unfold same_resources. by rewrite E1, E2, E3, E4.
Qed.

Lemma load_resources w0 p : preserves (same_resources w0) (load p).
Proof.
  apply resources_by_fields. intros w a w'. unfold load.
  destruct (p =? NULL); [done|]. destruct (mem w !! p); [|done].
  by intros [= <- <-].
Qed.

Lemma set_errno_resources w0 e : preserves (same_resources w0) (set_errno e).
Proof. apply resources_by_fields. by intros w a w' [= <- <-]. Qed.

Lemma GetLastError_resources w0 : preserves (same_resources w0) GetLastError.
Proof. apply resources_by_fields. by intros w a w' [= <- <-]. Qed.

Lemma arch_rel_time_in_ms_resources w0 t :
  preserves (same_resources w0) (arch_rel_time_in_ms t).
Proof. apply resources_by_fields. by intros w a w' [= <- <-]. Qed.

Lemma WaitForSingleObject_resources w0 h ms :
  preserves (same_resources w0) (WaitForSingleObject h ms).
Proof.
  apply resources_by_fields. intros w a w'. unfold WaitForSingleObject.
  destruct (resolve h w) as [[o k]|]; [|by intros [= <- <-]].
  destruct (0 <? count k); [by intros [= <- <-]|].
  destruct (ms =? INFINITE); [done|]. by intros [= <- <-].
Qed.

Lemma ReleaseSemaphore_resources w0 h n :
  preserves (same_resources w0) (ReleaseSemaphore h n).
Proof.
  apply resources_by_fields. intros w a w'. unfold ReleaseSemaphore.
  destruct (resolve h w) as [[o k]|]; [|by intros [= <- <-]].
  destruct (n <=? 0); [by intros [= <- <-]|].
  destruct (maximum k <? count k + n); by intros [= <- <-].
Qed.

Ltac keep_resources :=
  cbv zeta;
  repeat first
    [ apply preserves_ret
    | apply load_resources | apply set_errno_resources
    | apply GetLastError_resources | apply arch_rel_time_in_ms_resources
    | apply WaitForSingleObject_resources | apply ReleaseSemaphore_resources
    | apply preserves_if
    | (apply preserves_bind; [|intros ?]) ].

Lemma wait_family_resources (w0 : world) (sem : Z) (t : timespec) :
  preserves (same_resources w0) (sem_wait sem)
  /\ preserves (same_resources w0) (sem_trywait sem)
  /\ preserves (same_resources w0) (sem_timedwait sem t)
  /\ preserves (same_resources w0) (sem_post sem).
Proof.
  repeat match goal with |- _ /\ _ => split end.
  - unfold sem_wait. keep_resources.
  - unfold sem_trywait. keep_resources.
  - unfold sem_timedwait. keep_resources.
  - unfold sem_post. keep_resources.
Qed.

(** Waiting and posting work on the counter alone: whatever [sem_wait],
    [sem_trywait], [sem_timedwait] or [sem_post] returns, the memory, the
    set of heap blocks, the handle table and the namespace are what they
    were before the call.  None of them allocates, frees, opens or closes
    anything, on any path. *)
Theorem waiting_and_posting_keep_resources (w w' : world) (sem r : Z)
      (t : timespec) :
  sem_wait sem w = Ret r w'
  \/ sem_trywait sem w = Ret r w'
  \/ sem_timedwait sem t w = Ret r w'
  \/ sem_post sem w = Ret r w' ->
  same_resources w w'.
Proof.
  assert (H0 : same_resources w w) by done.
  destruct (wait_family_resources w sem t) as (Hwt & Htw & Htm & Hp).
  intros [E|[E|[E|E]]].
  - exact (Hwt _ _ _ E H0).
  - exact (Htw _ _ _ E H0).
  - exact (Htm _ _ _ E H0).
  - exact (Hp _ _ _ E H0).
Qed.

Lemma waiting_and_posting_keep_resources_witness :
  same_resources full_world
    (put_errno EOVERFLOW (set_last_error ERROR_TOO_MANY_POSTS full_world)).
Proof.
  apply (waiting_and_posting_keep_resources full_world _ 1 (-1) (Timespec 0 0)).
  do 3 right. reflexivity.
Defined.

(** ** Waiting with a deadline on a live handle *)

(** On a positive counter the deadline plays no part: [sem_timedwait]
    decrements the counter by one and returns 0 at once, exactly as
    [sem_trywait] does, for every [abs_timeout], past or future. *)
Theorem sem_timedwait_acquires (w : world) (sem h o : Z) (k : ksem)
      (abs_timeout : timespec) :
  sem <> NULL -> mem w !! sem = Some h ->
  handles w !! h = Some o -> objects w !! o = Some k ->
  0 < count k ->
  sem_timedwait sem abs_timeout w
    = Ret 0 (set_objects (<[o := set_count (count k - 1) k]> (objects w)) w)
  /\ sem_timedwait sem abs_timeout w = sem_trywait sem w.
Proof.
  intros Hsem Hm Hh Ho Hc.
  pose proof (resolve_ok w h o k Hh Ho) as Hr.
  assert (E : sem_timedwait sem abs_timeout w
              = Ret 0 (set_objects (<[o := set_count (count k - 1) k]> (objects w)) w)).
  { unfold sem_timedwait; enter_handle Hsem Hm; unfold bind.
    unfold arch_rel_time_in_ms. by rewrite (wait_acquires w h _ o k). }
  split; [done|]. rewrite E. symmetry. by apply (sem_trywait_step w sem h o k).
Qed.

Lemma sem_timedwait_acquires_witness :
  sem_timedwait 1 (Timespec 86400 0) probe_world
    = Ret 0 (set_objects (<[0 := KSem 2 10 EmptyString 1]> (objects probe_world))
                         probe_world)
  /\ sem_timedwait 1 (Timespec 86400 0) probe_world = sem_trywait 1 probe_world.
Proof.
  apply (sem_timedwait_acquires probe_world 1 5 0 (KSem 3 10 EmptyString 1));
    [discriminate | reflexivity | reflexivity | reflexivity | simpl; lia].
Defined.

(** On a zero counter, with the deadline still ahead by a number of
    milliseconds that the 32-bit wait argument holds and that is not
    [INFINITE], and nobody posting, [sem_timedwait] returns -1 with [errno]
    set to [ETIMEDOUT] once the deadline is reached; the counter is
    untouched. *)
Theorem sem_timedwait_expires (w : world) (sem h o : Z) (k : ksem)
      (abs_timeout : timespec) :
  sem <> NULL -> mem w !! sem = Some h ->
  handles w !! h = Some o -> objects w !! o = Some k ->
  count k <= 0 ->
  clock w < timespec_ms abs_timeout ->
  timespec_ms abs_timeout - clock w < INFINITE ->
  sem_timedwait sem abs_timeout w
    = Ret (-1) (put_errno ETIMEDOUT (set_clock (timespec_ms abs_timeout) w))
  /\ objects (put_errno ETIMEDOUT (set_clock (timespec_ms abs_timeout) w)) !! o
     = Some k.
Proof.
  intros Hsem Hm Hh Ho Hc Hfuture Hfinite.
  pose proof (resolve_ok w h o k Hh Ho) as Hr.
  split; [|done].
  unfold sem_timedwait; enter_handle Hsem Hm; unfold bind.
  unfold arch_rel_time_in_ms.
  rewrite Z.max_r by lia.
  rewrite to_uint_id by (unfold INFINITE in Hfinite; lia).
  rewrite (wait_times_out w h _ o k) by (done || lia).
  by replace (clock w + (timespec_ms abs_timeout - clock w))
    with (timespec_ms abs_timeout) by lia.
Qed.

Lemma sem_timedwait_expires_witness :
  sem_timedwait 1 (Timespec 2 500000000) drained_world
    = Ret (-1) (put_errno ETIMEDOUT (set_clock 2500 drained_world)).
Proof.
  apply (sem_timedwait_expires drained_world 1 5 0 (KSem 0 10 EmptyString 1));
    [ discriminate | reflexivity | reflexivity | reflexivity | simpl; lia
    | by vm_compute | by vm_compute ].
Defined.

(** ** Creating an unnamed semaphore: [sem_init] *)

Lemma create_anonymous (w : world) (init max : Z) :
  create_fault w = None -> 0 <= init <= max -> 0 < max ->
  CreateSemaphore init max EmptyString w =
    Ret (new_handle w)
      (set_last_error ERROR_SUCCESS
        (set_objects (<[new_object w := KSem init max EmptyString 1]> (objects w))
          (set_handles (<[new_handle w := new_object w]> (handles w)) w))).
Proof.
  intros Hf Hi Hm. unfold CreateSemaphore. rewrite Hf.
  destruct (Z.ltb_spec init 0); [lia|].
  destruct (Z.leb_spec max 0); [lia|].
  destruct (Z.ltb_spec max init); [lia|].
  reflexivity.
Qed.

(** What [CreateSemaphore] can return: [NULL] with only the last error
    changed, or the fresh handle with memory and heap untouched. *)
Lemma create_outcome (w : world) (init max : Z) (name : string) :
  exists h w', CreateSemaphore init max name w = Ret h w'
    /\ mem w' = mem w /\ heap w' = heap w
    /\ ((h = NULL /\ exists e, w' = set_last_error e w)
        \/ (h = new_handle w /\ h <> NULL)).
Proof.
  unfold CreateSemaphore.
  destruct (create_fault w) as [e|].
  { eexists _, _. split; [done|]. repeat split. left. eauto. }
  destruct ((init <? 0) || (max <=? 0) || (max <? init)).
  { eexists _, _. split; [done|]. repeat split. left. eauto. }
  cbv zeta. destruct (existing name w) as [[o k]|].
  - eexists _, _. split; [done|]. repeat split. right.
    split; [done|apply new_handle_fresh].
  - eexists _, _. split; [done|]. split; [|split].
    + by case_bool_decide.
    + by case_bool_decide.
    + right. split; [done|apply new_handle_fresh].
Qed.

Section SemInitFacts.

Variable SEM_VALUE_MAX : Z.
Hypothesis SEM_VALUE_MAX_range : 0 < SEM_VALUE_MAX <= INT_MAX.

(** The world a successful process-private [sem_init] returns in. *)
Lemma sem_init_private_world (w : world) (sem value : Z) :
  sem <> NULL -> is_Some (mem w !! sem) ->
  0 <= value <= SEM_VALUE_MAX ->
  calloc_fails w = false -> create_fault w = None ->
  sem_init SEM_VALUE_MAX sem PTHREAD_PROCESS_PRIVATE value w =
    Ret 0
      (set_mem (<[sem := new_block w]>
                  (<[new_block w := new_handle w]> (<[new_block w := 0]> (mem w))))
        (set_heap ({[new_block w]} ∪ heap w)
          (set_last_error ERROR_SUCCESS
            (set_objects
               (<[new_object w := KSem value SEM_VALUE_MAX EmptyString 1]> (objects w))
               (set_handles (<[new_handle w := new_object w]> (handles w)) w))))).
Proof.
  intros Hsem Hmem Hv Hc Hf.
  pose proof SEM_VALUE_MAX_range as Hrange. unfold INT_MAX in Hrange.
  destruct (new_block_fresh w) as (Hb0 & Hbm & Hbh).
  destruct (new_handle_fresh w) as (Hh0 & Hhm).
  assert (Hne : sem <> new_block w).
  { intros ->. destruct Hmem as [x Hx]. congruence. }
  unfold sem_init.
  rewrite (proj2 (Z.eqb_neq _ _) Hsem).
  rewrite (to_uint_id SEM_VALUE_MAX) by lia.
  destruct (Z.ltb_spec SEM_VALUE_MAX value) as [?|_]; [lia|].
  rewrite (to_int_id value) by (unfold INT_MAX; lia).
  rewrite (to_int_id SEM_VALUE_MAX) by (unfold INT_MAX; lia).
  cbv beta iota zeta delta [orb].
  unfold bind at 1; unfold calloc; rewrite Hc; cbv beta iota zeta.
  destruct (Z.eqb_spec (new_block w) NULL) as [?|_]; [done|].
  change (negb (PTHREAD_PROCESS_PRIVATE =? PTHREAD_PROCESS_PRIVATE)) with false.
  cbv beta iota.
  set (w1 := set_heap _ _).
  unfold bind at 1. rewrite (create_anonymous w1) by (done || lia).
  change (new_handle w1) with (new_handle w).
  change (new_object w1) with (new_object w).
  cbv beta iota zeta. unfold bind at 1.
  rewrite store_ok; [|done|subst w1; world_simpl; rewrite lookup_insert_eq; eauto].
  cbv beta iota zeta.
  destruct (Z.eqb_spec (new_handle w) NULL) as [?|_]; [done|].
  unfold bind at 1.
  rewrite store_ok;
    [|done|subst w1; world_simpl; rewrite !lookup_insert_ne by done; done].
  reflexivity.
Qed.

(** A process-private [sem_init] on a writable [sem_t] creates an anonymous
    semaphore whose counter is [value] and whose bound is [SEM_VALUE_MAX]:
    it returns 0, a new one-cell wrapper holds the new native handle, and
    the caller's [sem_t] holds the address of that wrapper.  [errno] and the
    namespace are untouched. *)
Theorem sem_init_creates (w : world) (sem value : Z) :
  sem <> NULL -> is_Some (mem w !! sem) ->
  0 <= value <= SEM_VALUE_MAX ->
  calloc_fails w = false -> create_fault w = None ->
  exists w' pv h o,
    sem_init SEM_VALUE_MAX sem PTHREAD_PROCESS_PRIVATE value w = Ret 0 w'
    /\ mem w !! pv = None /\ (pv ∉ heap w) /\ handles w !! h = None
    /\ mem w' !! sem = Some pv
    /\ mem w' !! pv = Some h
    /\ heap w' = {[pv]} ∪ heap w
    /\ handles w' !! h = Some o
    /\ objects w' !! o = Some (KSem value SEM_VALUE_MAX EmptyString 1)
    /\ namespace w' = namespace w /\ errno w' = errno w.
Proof.
  intros Hsem Hmem Hv Hc Hf.
  destruct (new_block_fresh w) as (Hb0 & Hbm & Hbh).
  destruct (new_handle_fresh w) as (Hh0 & Hhm).
  assert (Hne : sem <> new_block w).
  { intros ->. destruct Hmem as [x Hx]. congruence. }
  eexists _, (new_block w), (new_handle w), (new_object w). split.
  - by apply sem_init_private_world.
  - world_simpl. repeat split; try done.
    + apply lookup_insert_eq.
    + rewrite lookup_insert_ne by done. apply lookup_insert_eq.
    + apply lookup_insert_eq.
    + apply lookup_insert_eq.
Qed.

(** The [sem_t] that [sem_init] has just filled does not work with the other
    routines.  [sem_init] leaves the address of the wrapper in it, and they
    read the native handle from it: unless that address happens to be an
    open handle, [sem_wait], [sem_trywait], [sem_timedwait], [sem_post] and
    [sem_getvalue] all return -1 with [errno] set to [EINVAL], and the
    counter of the new semaphore is never reached. *)
Theorem sem_init_handle_unusable (w : world) (sem value out : Z) (t : timespec) :
  sem <> NULL -> is_Some (mem w !! sem) ->
  0 <= value <= SEM_VALUE_MAX ->
  calloc_fails w = false -> create_fault w = None ->
  handles w !! new_block w = None -> new_block w <> new_handle w ->
  exists w',
    sem_init SEM_VALUE_MAX sem PTHREAD_PROCESS_PRIVATE value w = Ret 0 w'
    /\ let w'' := put_errno EINVAL (set_last_error ERROR_INVALID_HANDLE w') in
       sem_wait sem w' = Ret (-1) w''
       /\ sem_trywait sem w' = Ret (-1) w''
       /\ sem_timedwait sem t w' = Ret (-1) w''
       /\ sem_post sem w' = Ret (-1) w''
       /\ sem_getvalue sem out w' = Ret (-1) w''.
Proof.
  intros Hsem Hmem Hv Hc Hf Hnh Hne.
  eexists. split; [by apply sem_init_private_world|].
  apply (stale_handle_routines _ sem (new_block w)); [done| |].
  - world_simpl. apply lookup_insert_eq.
  - unfold resolve. world_simpl.
    rewrite lookup_insert_ne by done. by rewrite Hnh.
Qed.

End SemInitFacts.

Lemma sem_init_creates_witness :
  exists w' pv h o,
    sem_init INT_MAX 1 PTHREAD_PROCESS_PRIVATE 3 caller_world = Ret 0 w'
    /\ mem caller_world !! pv = None /\ (pv ∉ heap caller_world)
    /\ handles caller_world !! h = None
    /\ mem w' !! 1 = Some pv
    /\ mem w' !! pv = Some h
    /\ heap w' = {[pv]} ∪ heap caller_world
    /\ handles w' !! h = Some o
    /\ objects w' !! o = Some (KSem 3 INT_MAX EmptyString 1)
    /\ namespace w' = namespace caller_world /\ errno w' = errno caller_world.
Proof.
  apply (sem_init_creates INT_MAX ltac:(unfold INT_MAX; lia) caller_world 1 3);
    [ discriminate | vm_compute; eauto | unfold INT_MAX; lia
    | reflexivity | reflexivity ].
Defined.

Lemma sem_init_handle_unusable_witness :
  exists w',
    sem_init INT_MAX 1 PTHREAD_PROCESS_PRIVATE 3 caller_world = Ret 0 w'
    /\ let w'' := put_errno EINVAL (set_last_error ERROR_INVALID_HANDLE w') in
       sem_wait 1 w' = Ret (-1) w''
       /\ sem_trywait 1 w' = Ret (-1) w''
       /\ sem_timedwait 1 (Timespec 0 0) w' = Ret (-1) w''
       /\ sem_post 1 w' = Ret (-1) w''
       /\ sem_getvalue 1 2 w' = Ret (-1) w''.
Proof.
  apply (sem_init_handle_unusable INT_MAX ltac:(unfold INT_MAX; lia)
           caller_world 1 3 2 (Timespec 0 0));
    [ discriminate | vm_compute; eauto | unfold INT_MAX; lia
    | reflexivity | reflexivity | by vm_compute | by vm_compute ].
Defined.

(** A failing [sem_init] leaks nothing: whenever it returns a value other
    than 0, that value is -1, [errno] is [EINVAL], [ENOMEM] or [ENOSPC], and
    memory, heap blocks, handle table, kernel objects and namespace are what
    they were before the call (the wrapper allocated on the way is freed
    again). *)
Theorem sem_init_failure_leaks_nothing (SEM_VALUE_MAX : Z) (w w' : world)
      (sem pshared value r : Z) :
  sem_init SEM_VALUE_MAX sem pshared value w = Ret r w' -> r <> 0 ->
  r = -1
  /\ mem w' = mem w /\ heap w' = heap w /\ handles w' = handles w
  /\ objects w' = objects w /\ namespace w' = namespace w
  /\ (errno w' = Some EINVAL \/ errno w' = Some ENOMEM \/ errno w' = Some ENOSPC).
Proof.
  unfold sem_init.
  destruct ((sem =? NULL) || (to_uint SEM_VALUE_MAX <? value)).
  { intros [= <- <-] _. repeat split; eauto. }
  unfold bind at 1, calloc. destruct (calloc_fails w).
  { change (NULL =? NULL) with true. cbv beta iota.
    intros [= <- <-] _. repeat split; eauto. }
  cbv beta iota zeta.
  destruct (new_block_fresh w) as (Hb0 & Hbm & Hbh).
  destruct (Z.eqb_spec (new_block w) NULL) as [?|_]; [done|].
  set (w1 := set_heap _ _). set (buf := if negb _ then _ else _).
  destruct (create_outcome w1 (to_int value) (to_int SEM_VALUE_MAX) buf)
    as (h & w2 & E & Hm & Hh & [(-> & e & ->)|(-> & Hn)]).
  - unfold bind at 1. rewrite E. unfold bind at 1.
    rewrite store_ok;
      [|done|subst w1; world_simpl; rewrite lookup_insert_eq; eauto].
    change (NULL =? NULL) with true. cbv beta iota.
    unfold bind at 1.
    rewrite free_ok;
      [|done|subst w1; world_simpl; by apply elem_of_union_l, elem_of_singleton].
    intros [= <- <-] _. subst w1. world_simpl.
    rewrite wrapper_released, block_released by done. repeat split; eauto.
  - unfold bind at 1. rewrite E. unfold bind at 1.
    rewrite store_ok;
      [|done|rewrite Hm; subst w1; world_simpl; rewrite lookup_insert_eq; eauto].
    rewrite (proj2 (Z.eqb_neq _ _) Hn). unfold bind.
    destruct (store sem _ _); [|done|done].
    by intros [= <- <-] Hr.
Qed.

Lemma sem_init_failure_leaks_nothing_witness :
  mem (put_errno ENOSPC (set_last_error 8 (refusing_world 8)))
    = mem (refusing_world 8)
  /\ heap (put_errno ENOSPC (set_last_error 8 (refusing_world 8)))
    = heap (refusing_world 8).
Proof.
  destruct (sem_init_failure_leaks_nothing INT_MAX (refusing_world 8)
              (put_errno ENOSPC (set_last_error 8 (refusing_world 8)))
              1 0 3 (-1))
    as (_ & H1 & H2 & _); [by vm_compute | discriminate |].
  split; [exact H1 | exact H2].
Defined.

(** ** Opening a named semaphore: the paths that return a handle *)

Section SemOpenHandles.

Variable SEM_VALUE_MAX : Z.
Hypothesis SEM_VALUE_MAX_range : 0 < SEM_VALUE_MAX <= INT_MAX.

Ltac sem_open_begin w s value :=
  pose proof SEM_VALUE_MAX_range as Hrange; unfold INT_MAX in Hrange;
  unfold sem_open;
  rewrite (to_uint_id SEM_VALUE_MAX) by lia;
  destruct (Z.ltb_spec SEM_VALUE_MAX value) as [?|_]; [lia|];
  rewrite (to_int_id value) by (unfold INT_MAX; lia);
  rewrite (to_int_id SEM_VALUE_MAX) by (unfold INT_MAX; lia);
  change (to_int sizeof_buffer - 8) with 504;
  destruct (Z.ltb_spec 504 (to_int (strlen s))) as [?|_]; [lia|];
  destruct (Z.ltb_spec (to_int (strlen s)) 1) as [?|_]; [lia|];
  cbv beta iota zeta delta [orb];
  change (String.append Global_prefix
            (substring 0 (Z.to_nat (to_int (strlen s))) s))
    with (buffer_text s);
  unfold bind at 1; unfold calloc;
  match goal with H : calloc_fails w = false |- _ => rewrite H end;
  cbv beta iota zeta;
  destruct (Z.eqb_spec (new_block w) NULL) as [?|_]; [done|].

(** The world [sem_open] returns in when it creates the semaphore. *)
Lemma sem_open_created_world (w : world) (s : string) (oflag mode value : Z) :
  0 <= value <= SEM_VALUE_MAX ->
  1 <= to_int (strlen s) <= 504 ->
  calloc_fails w = false -> create_fault w = None ->
  existing (buffer_text s) w = None ->
  Z.land oflag O_CREAT <> 0 ->
  sem_open SEM_VALUE_MAX (Some s) oflag mode value w =
    Ret (new_block w)
      (set_mem (<[new_block w := new_handle w]> (<[new_block w := 0]> (mem w)))
        (set_heap ({[new_block w]} ∪ heap w)
          (set_last_error ERROR_SUCCESS
            (set_namespace (<[buffer_text s := new_object w]> (namespace w))
              (set_objects
                 (<[new_object w := KSem value SEM_VALUE_MAX (buffer_text s) 1]>
                    (objects w))
                 (set_handles (<[new_handle w := new_object w]> (handles w)) w)))))).
Proof.
  intros Hv Hs Hc Hf He Ho.
  destruct (new_block_fresh w) as (Hb0 & Hbm & Hbh).
  destruct (new_handle_fresh w) as (Hh0 & Hhm).
  sem_open_begin w s value.
  set (w1 := set_heap _ _).
  unfold bind at 1.
  rewrite (create_fresh w1) by (done || lia).
  change (new_handle w1) with (new_handle w).
  change (new_object w1) with (new_object w).
  cbv beta iota zeta. unfold bind at 1.
  rewrite store_ok; [|done|subst w1; world_simpl; rewrite lookup_insert_eq; eauto].
  cbv beta iota zeta.
  destruct (Z.eqb_spec (new_handle w) NULL) as [?|_]; [done|].
  unfold bind at 1, GetLastError. world_simpl.
  change (ERROR_SUCCESS =? ERROR_ALREADY_EXISTS) with false.
  cbv beta iota zeta.
  destruct (Z.eqb_spec (Z.land oflag O_CREAT) 0) as [?|_]; [done|].
  reflexivity.
Qed.

(** The world [sem_open] returns in when it opens a semaphore that exists. *)
Lemma sem_open_existing_world (w : world) (s : string) (oflag mode value o : Z)
      (k : ksem) :
  0 <= value <= SEM_VALUE_MAX ->
  1 <= to_int (strlen s) <= 504 ->
  calloc_fails w = false -> create_fault w = None ->
  existing (buffer_text s) w = Some (o, k) ->
  Z.land oflag O_CREAT = 0 \/ Z.land oflag O_EXCL = 0 ->
  sem_open SEM_VALUE_MAX (Some s) oflag mode value w =
    Ret (new_block w)
      (set_mem (<[new_block w := new_handle w]> (<[new_block w := 0]> (mem w)))
        (set_heap ({[new_block w]} ∪ heap w)
          (set_last_error ERROR_ALREADY_EXISTS
            (set_objects (<[o := set_refs (refs k + 1) k]> (objects w))
              (set_handles (<[new_handle w := o]> (handles w)) w))))).
Proof.
  intros Hv Hs Hc Hf He Hflags.
  destruct (new_block_fresh w) as (Hb0 & Hbm & Hbh).
  destruct (new_handle_fresh w) as (Hh0 & Hhm).
  sem_open_begin w s value.
  set (w1 := set_heap _ _).
  unfold bind at 1.
  rewrite (create_existing w1 _ _ o k) by (done || lia).
  change (new_handle w1) with (new_handle w).
  cbv beta iota zeta. unfold bind at 1.
  rewrite store_ok; [|done|subst w1; world_simpl; rewrite lookup_insert_eq; eauto].
  cbv beta iota zeta.
  destruct (Z.eqb_spec (new_handle w) NULL) as [?|_]; [done|].
  unfold bind at 1, GetLastError. world_simpl.
  change (ERROR_ALREADY_EXISTS =? ERROR_ALREADY_EXISTS) with true.
  cbv beta iota zeta.
  replace (negb (Z.land oflag O_CREAT =? 0) && negb (Z.land oflag O_EXCL =? 0))
    with false; [reflexivity|].
  destruct Hflags as [-> | ->]; [done|]. by rewrite andb_false_r.
Qed.

(** With [O_CREAT] and a name nobody holds, [sem_open] creates the
    semaphore: it returns the address of a new one-cell wrapper that holds a
    new native handle to a new object with counter [value], bound
    [SEM_VALUE_MAX] and the prefixed name, which the namespace now maps to
    that object.  [errno] is untouched. *)
Theorem sem_open_creates (w : world) (s : string) (oflag mode value : Z) :
  0 <= value <= SEM_VALUE_MAX ->
  1 <= to_int (strlen s) <= 504 ->
  calloc_fails w = false -> create_fault w = None ->
  existing (buffer_text s) w = None ->
  Z.land oflag O_CREAT <> 0 ->
  exists w' pv h o,
    sem_open SEM_VALUE_MAX (Some s) oflag mode value w = Ret pv w'
    /\ pv <> NULL /\ mem w !! pv = None /\ handles w !! h = None
    /\ mem w' !! pv = Some h
    /\ heap w' = {[pv]} ∪ heap w
    /\ handles w' !! h = Some o
    /\ objects w' !! o = Some (KSem value SEM_VALUE_MAX (buffer_text s) 1)
    /\ namespace w' !! buffer_text s = Some o
    /\ errno w' = errno w.
Proof.
  intros Hv Hs Hc Hf He Ho.
  destruct (new_block_fresh w) as (Hb0 & Hbm & Hbh).
  destruct (new_handle_fresh w) as (Hh0 & Hhm).
  eexists _, (new_block w), (new_handle w), (new_object w). split.
  - by apply sem_open_created_world.
  - world_simpl. repeat split; try done; apply lookup_insert_eq.
Qed.

(** When the name is taken and the flags are not both [O_CREAT] and
    [O_EXCL], [sem_open] returns a new wrapper with a new native handle to
    the object that exists: the requested [value] is ignored, the counter
    and the bound of the object stay what they were, and the object gains
    one reference. *)
Theorem sem_open_opens_existing (w : world) (s : string)
      (oflag mode value o : Z) (k : ksem) :
  0 <= value <= SEM_VALUE_MAX ->
  1 <= to_int (strlen s) <= 504 ->
  calloc_fails w = false -> create_fault w = None ->
  existing (buffer_text s) w = Some (o, k) ->
  Z.land oflag O_CREAT = 0 \/ Z.land oflag O_EXCL = 0 ->
  exists w' pv h,
    sem_open SEM_VALUE_MAX (Some s) oflag mode value w = Ret pv w'
    /\ pv <> NULL /\ mem w !! pv = None /\ handles w !! h = None
    /\ mem w' !! pv = Some h
    /\ handles w' !! h = Some o
    /\ objects w' !! o
         = Some (KSem (count k) (maximum k) (kname k) (refs k + 1))
    /\ namespace w' = namespace w
    /\ errno w' = errno w.
Proof.
  intros Hv Hs Hc Hf He Hflags.
  destruct (new_block_fresh w) as (Hb0 & Hbm & Hbh).
  destruct (new_handle_fresh w) as (Hh0 & Hhm).
  eexists _, (new_block w), (new_handle w). split.
  - by apply (sem_open_existing_world w s oflag mode value o k).
  - world_simpl. repeat split; try done; apply lookup_insert_eq.
Qed.

(** A semaphore just created by [sem_open] reads back its initial value:
    [sem_open] with [O_CREAT] on a free name followed by [sem_getvalue] on
    the handle it returned stores [value] in the out-cell and returns 0. *)
Theorem sem_open_then_getvalue (w : world) (s : string)
      (oflag mode value out : Z) :
  0 <= value <= SEM_VALUE_MAX ->
  1 <= to_int (strlen s) <= 504 ->
  calloc_fails w = false -> create_fault w = None ->
  existing (buffer_text s) w = None ->
  Z.land oflag O_CREAT <> 0 ->
  out <> NULL -> is_Some (mem w !! out) ->
  exists w',
    (let* sem := sem_open SEM_VALUE_MAX (Some s) oflag mode value in
     sem_getvalue sem out) w = Ret 0 w'
    /\ mem w' !! out = Some value.
Proof.
  intros Hv Hs Hc Hf He Ho Hout Hmout.
  pose proof SEM_VALUE_MAX_range as Hrange.
  destruct (new_block_fresh w) as (Hb0 & Hbm & Hbh).
  assert (Hne : new_block w <> out).
  { intros E. rewrite E in Hbm. destruct Hmout as [x Hx]. congruence. }
  eexists. split.
  - unfold bind. rewrite sem_open_created_world by done.
    apply (sem_getvalue_reads _ _ out (new_handle w) (new_object w)
             (KSem value SEM_VALUE_MAX (buffer_text s) 1)); try done.
    all: first
      [ world_simpl; apply lookup_insert_eq
      | simpl; unfold LONG_MAX, INT_MAX in Hrange |- *; lia
      | world_simpl; by rewrite !lookup_insert_ne ].
  - world_simpl. apply lookup_insert_eq.
Qed.

(** The first creator wins: after [sem_open] has opened an existing
    semaphore, [sem_getvalue] on the new handle stores the counter that
    object already had, not the [value] passed to [sem_open]. *)
Theorem sem_open_existing_keeps_counter (w : world) (s : string)
      (oflag mode value out o : Z) (k : ksem) :
  0 <= value <= SEM_VALUE_MAX ->
  1 <= to_int (strlen s) <= 504 ->
  calloc_fails w = false -> create_fault w = None ->
  existing (buffer_text s) w = Some (o, k) ->
  Z.land oflag O_CREAT = 0 \/ Z.land oflag O_EXCL = 0 ->
  0 <= count k <= maximum k -> maximum k <= LONG_MAX ->
  out <> NULL -> is_Some (mem w !! out) ->
  exists w',
    (let* sem := sem_open SEM_VALUE_MAX (Some s) oflag mode value in
     sem_getvalue sem out) w = Ret 0 w'
    /\ mem w' !! out = Some (count k).
Proof.
  intros Hv Hs Hc Hf He Hflags Hk Hmax Hout Hmout.
  destruct (new_block_fresh w) as (Hb0 & Hbm & Hbh).
  assert (Hne : new_block w <> out).
  { intros E. rewrite E in Hbm. destruct Hmout as [x Hx]. congruence. }
  eexists. split.
  - unfold bind. rewrite (sem_open_existing_world w s oflag mode value o k) by done.
    apply (sem_getvalue_reads _ _ out (new_handle w) o
             (set_refs (refs k + 1) k)); try done.
    all: first
      [ world_simpl; apply lookup_insert_eq
      | world_simpl; by rewrite !lookup_insert_ne ].
  - world_simpl. apply lookup_insert_eq.
Qed.

End SemOpenHandles.

Lemma sem_open_creates_witness :
  exists w' pv h o,
    sem_open INT_MAX (Some "x"%string) O_CREAT 0 3 caller_world = Ret pv w'
    /\ pv <> NULL /\ mem caller_world !! pv = None
    /\ handles caller_world !! h = None
    /\ mem w' !! pv = Some h
    /\ heap w' = {[pv]} ∪ heap caller_world
    /\ handles w' !! h = Some o
    /\ objects w' !! o = Some (KSem 3 INT_MAX (buffer_text "x") 1)
    /\ namespace w' !! buffer_text "x" = Some o
    /\ errno w' = errno caller_world.
Proof.
  apply (sem_open_creates INT_MAX ltac:(unfold INT_MAX; lia)
           caller_world "x"%string O_CREAT 0 3);
    [ unfold INT_MAX; lia | by vm_compute | reflexivity | reflexivity
    | vm_compute; reflexivity | discriminate ].
Defined.

Lemma sem_open_opens_existing_witness :
  exists w' pv h,
    sem_open INT_MAX (Some "x"%string) O_CREAT 0 7 named_world = Ret pv w'
    /\ pv <> NULL /\ mem named_world !! pv = None
    /\ handles named_world !! h = None
    /\ mem w' !! pv = Some h
    /\ handles w' !! h = Some 0
    /\ objects w' !! 0
         = Some (KSem 3 INT_MAX (String.append Global_prefix "x") 2)
    /\ namespace w' = namespace named_world
    /\ errno w' = errno named_world.
Proof.
  apply (sem_open_opens_existing INT_MAX ltac:(unfold INT_MAX; lia)
           named_world "x"%string O_CREAT 0 7 0
           (KSem 3 INT_MAX (String.append Global_prefix "x") 1));
    [ unfold INT_MAX; lia | by vm_compute | reflexivity | reflexivity
    | vm_compute; reflexivity | by right ].
Defined.

Lemma sem_open_then_getvalue_witness :
  exists w',
    (let* sem := sem_open INT_MAX (Some "x"%string) O_CREAT 0 3 in
     sem_getvalue sem 2) caller_world = Ret 0 w'
    /\ mem w' !! 2 = Some 3.
Proof.
  apply (sem_open_then_getvalue INT_MAX ltac:(unfold INT_MAX; lia)
           caller_world "x"%string O_CREAT 0 3 2);
    [ unfold INT_MAX; lia | by vm_compute | reflexivity | reflexivity
    | vm_compute; reflexivity | discriminate | discriminate
    | vm_compute; eauto ].
Defined.

Lemma sem_open_existing_keeps_counter_witness :
  exists w',
    (let* sem := sem_open INT_MAX (Some "x"%string) O_CREAT 0 7 in
     sem_getvalue sem 2) named_world_with_int = Ret 0 w'
    /\ mem w' !! 2 = Some 3.
Proof.
  apply (sem_open_existing_keeps_counter INT_MAX ltac:(unfold INT_MAX; lia)
           named_world_with_int "x"%string O_CREAT 0 7 2 0
           (KSem 3 INT_MAX (String.append Global_prefix "x") 1));
    [ unfold INT_MAX; lia | by vm_compute | reflexivity | reflexivity
    | vm_compute; reflexivity | by right | simpl; unfold INT_MAX; lia
    | simpl; unfold INT_MAX, LONG_MAX; lia | discriminate
    | vm_compute; eauto ].
Defined.

(** ** Opening a named semaphore: the paths that return [NULL] *)

(** When the host refuses to create the object, [sem_open] returns [NULL]
    with [errno] set from the host's error code: [EACCES] for
    [ERROR_ACCESS_DENIED], [ENOENT] for [ERROR_INVALID_HANDLE], [ENOSPC] for
    every other code.  The wrapper is freed: apart from the two error slots
    the world is what it was before the call. *)
Theorem sem_open_host_refusal (SEM_VALUE_MAX : Z) (w : world) (s : string)
      (oflag mode value e : Z) :
  value <= to_uint SEM_VALUE_MAX ->
  1 <= to_int (strlen s) <= 504 ->
  calloc_fails w = false -> create_fault w = Some e ->
  sem_open SEM_VALUE_MAX (Some s) oflag mode value w =
    Ret NULL
      (put_errno (if e =? ERROR_ACCESS_DENIED then EACCES
                  else if e =? ERROR_INVALID_HANDLE then ENOENT
                  else ENOSPC)
         (set_last_error e w)).
Proof.
  intros Hv Hs Hc Hf.
  destruct (new_block_fresh w) as (Hb0 & Hbm & Hbh).
  unfold sem_open.
  destruct (Z.ltb_spec (to_uint SEM_VALUE_MAX) value) as [?|_]; [lia|].
  change (to_int sizeof_buffer - 8) with 504.
  destruct (Z.ltb_spec 504 (to_int (strlen s))) as [?|_]; [lia|].
  destruct (Z.ltb_spec (to_int (strlen s)) 1) as [?|_]; [lia|].
  cbv beta iota zeta delta [orb].
  unfold bind at 1; unfold calloc; rewrite Hc; cbv beta iota zeta.
  destruct (Z.eqb_spec (new_block w) NULL) as [?|_]; [done|].
  set (w1 := set_heap _ _).
  unfold bind at 1. rewrite (create_refused w1 _ _ e) by done.
  unfold bind at 1.
  rewrite store_ok; [|done|subst w1; world_simpl; rewrite lookup_insert_eq; eauto].
  change (NULL =? NULL) with true. cbv beta iota.
  unfold bind at 1, GetLastError. world_simpl.
  assert (Hfree : forall c,
            free (new_block w)
              (put_errno c (set_mem (<[new_block w := NULL]> (mem w1))
                              (set_last_error e w1)))
            = Ret tt (put_errno c (set_last_error e w))).
  { intros c. rewrite free_ok;
      [|done|subst w1; world_simpl; by apply elem_of_union_l, elem_of_singleton].
    subst w1. unfold put_errno. world_simpl.
    by rewrite wrapper_released, block_released. }
  destruct (e =? ERROR_ACCESS_DENIED); [|destruct (e =? ERROR_INVALID_HANDLE)];
    unfold bind, set_errno; rewrite Hfree; reflexivity.
Qed.

Lemma sem_open_host_refusal_witness :
  sem_open INT_MAX (Some "x"%string) O_CREAT 0 3 (refusing_world 5)
    = Ret NULL (put_errno EACCES (set_last_error 5 (refusing_world 5)))
  /\ sem_open INT_MAX (Some "x"%string) O_CREAT 0 3 (refusing_world 8)
    = Ret NULL (put_errno ENOSPC (set_last_error 8 (refusing_world 8))).
Proof.
  split.
  - apply (sem_open_host_refusal INT_MAX (refusing_world 5) "x"%string O_CREAT 0 3 5);
      [by vm_compute | by vm_compute | reflexivity | reflexivity].
  - apply (sem_open_host_refusal INT_MAX (refusing_world 8) "x"%string O_CREAT 0 3 8);
      [by vm_compute | by vm_compute | reflexivity | reflexivity].
Defined.

Lemma create_handle_open (w w' : world) (init max h : Z) (name : string) :
  CreateSemaphore init max name w = Ret h w' ->
  errno w' = errno w /\ (h <> NULL -> is_Some (handles w' !! h)).
Proof.
  unfold CreateSemaphore.
  destruct (create_fault w); [by intros [= <- <-]|].
  destruct ((init <? 0) || (max <=? 0) || (max <? init)); [by intros [= <- <-]|].
  cbv zeta. destruct (existing name w) as [[o k]|]; intros [= <- <-].
  - world_simpl. split; [done|]. intros _. rewrite lookup_insert_eq. eauto.
  - case_bool_decide; world_simpl; (split; [done|]); intros _;
      rewrite lookup_insert_eq; eauto.
Qed.

Lemma close_frame (w : world) (h : Z) :
  exists r w', CloseHandle h w = Ret r w'
    /\ mem w' = mem w /\ heap w' = heap w.
Proof.
  unfold CloseHandle. destruct (resolve h w) as [[o k]|].
  - cbv zeta. destruct (refs k <=? 1); by eexists _, _.
  - by eexists _, _.
Qed.

(** [sem_open] returns [NULL] exactly on its failure paths, and then the
    wrapper is gone: whenever it returns [NULL], [errno] has been set to one
    of [EINVAL], [ENOMEM], [EACCES], [ENOENT], [ENOSPC], [EEXIST], and the
    memory and the heap blocks are what they were before the call.  Whenever
    it returns a pointer other than [NULL], that pointer is a new heap block
    whose cell holds an open native handle, and [errno] is untouched. *)
Theorem sem_open_null_iff_failed (SEM_VALUE_MAX : Z) (w w' : world)
      (name : option string) (oflag mode value r : Z) :
  sem_open SEM_VALUE_MAX name oflag mode value w = Ret r w' ->
  (r = NULL ->
     mem w' = mem w /\ heap w' = heap w
     /\ (errno w' = Some EINVAL \/ errno w' = Some ENOMEM
         \/ errno w' = Some EACCES \/ errno w' = Some ENOENT
         \/ errno w' = Some ENOSPC \/ errno w' = Some EEXIST))
  /\ (r <> NULL ->
        mem w !! r = None /\ heap w' = {[r]} ∪ heap w /\ errno w' = errno w
        /\ exists h, mem w' !! r = Some h /\ is_Some (handles w' !! h)).
Proof.
  unfold sem_open.
  destruct (to_uint SEM_VALUE_MAX <? value).
  { intros [= <- <-]. split; [|done]. intros _. repeat split; eauto. }
  destruct name as [s|]; [|done]. cbv zeta.
  destruct ((to_int sizeof_buffer - 8 <? to_int (strlen s))
            || (to_int (strlen s) <? 1)).
  { intros [= <- <-]. split; [|done]. intros _. repeat split; eauto. }
  unfold bind at 1, calloc. destruct (calloc_fails w).
  { change (NULL =? NULL) with true. cbv beta iota.
    intros [= <- <-]. split; [|done]. intros _. repeat split; eauto. }
  cbv beta iota zeta.
  destruct (new_block_fresh w) as (Hb0 & Hbm & Hbh).
  destruct (Z.eqb_spec (new_block w) NULL) as [?|_]; [done|].
  set (w1 := set_heap _ _). set (buffer := String.append _ _).
  assert (Hfreed : forall (w3 : world),
            mem w3 = <[new_block w := mem w3 !!! new_block w]> (mem w1) ->
            heap w3 = heap w1 ->
            exists w4, free (new_block w) w3 = Ret tt w4
              /\ mem w4 = mem w /\ heap w4 = heap w /\ errno w4 = errno w3).
  { intros w3 Hm3 Hh3. eexists. split.
    - apply free_ok; [done|]. rewrite Hh3. subst w1; world_simpl.
      by apply elem_of_union_l, elem_of_singleton.
    - world_simpl. rewrite Hm3, Hh3. subst w1; world_simpl.
      by rewrite wrapper_released, block_released. }
  destruct (create_outcome w1 (to_int value) (to_int SEM_VALUE_MAX) buffer)
    as (h & w2 & E & Hm & Hh & Hcase).
  destruct (create_handle_open _ _ _ _ _ _ E) as (He2 & Hopen).
  unfold bind at 1. rewrite E. unfold bind at 1.
  rewrite store_ok;
    [|by destruct Hcase as [(-> & e & ->)|(-> & Hn)];
        [apply new_block_fresh|apply new_block_fresh]
     |rewrite Hm; subst w1; world_simpl; rewrite lookup_insert_eq; eauto].
  set (w3 := set_mem _ w2).
  assert (Hm3 : mem w3 = <[new_block w := mem w3 !!! new_block w]> (mem w1)).
  { subst w3. world_simpl. rewrite Hm. rewrite lookup_total_insert_eq.
    subst w1; world_simpl. by rewrite !insert_insert_eq. }
  assert (Hh3 : heap w3 = heap w1) by (subst w3; world_simpl; done).
  destruct Hcase as [(-> & e & Hw2)|(-> & Hn)].
  - change (NULL =? NULL) with true. cbv beta iota.
    unfold bind at 1, GetLastError.
    assert (Hset : exists c w5,
              (if last_error w3 =? ERROR_ACCESS_DENIED then set_errno EACCES
               else if last_error w3 =? ERROR_INVALID_HANDLE then set_errno ENOENT
               else set_errno ENOSPC) w3 = Ret (-1) (put_errno c w3)
              /\ w5 = put_errno c w3
              /\ (c = EACCES \/ c = ENOENT \/ c = ENOSPC)).
    { destruct (last_error w3 =? ERROR_ACCESS_DENIED);
        [|destruct (last_error w3 =? ERROR_INVALID_HANDLE)];
        eexists _, _; (split; [reflexivity|]); split; eauto. }
    destruct Hset as (c & w5 & Ec & _ & Hc).
    unfold bind at 1. rewrite Ec.
    destruct (Hfreed (put_errno c w3) Hm3 Hh3) as (w4 & Ef & Hm4 & Hh4 & He4).
    unfold bind. rewrite Ef. intros [= <- <-]. split; [|done]. intros _.
    repeat split; [done|done|]. rewrite He4. simpl.
    destruct Hc as [->| [->| ->]]; eauto 10.
  - rewrite (proj2 (Z.eqb_neq _ _) Hn).
    assert (Hsuccess :
              mem w !! new_block w = None
              /\ heap w3 = {[new_block w]} ∪ heap w /\ errno w3 = errno w
              /\ exists h, mem w3 !! new_block w = Some h
                           /\ is_Some (handles w3 !! h)).
    { split; [done|]. split; [by rewrite Hh3|]. split.
      - subst w3; world_simpl. by rewrite He2.
      - exists (new_handle w1). split.
        + subst w3; world_simpl. apply lookup_insert_eq.
        + subst w3; world_simpl. by apply Hopen. }
    unfold bind at 1, GetLastError.
    destruct (last_error w3 =? ERROR_ALREADY_EXISTS).
    + destruct (negb (Z.land oflag O_CREAT =? 0) && negb (Z.land oflag O_EXCL =? 0)).
      * unfold bind at 1.
        rewrite (load_ok w3 _ (new_handle w1));
          [|done|subst w3; world_simpl; apply lookup_insert_eq].
        destruct (close_frame w3 (new_handle w1)) as (rc & w4 & Ec & Hm4 & Hh4).
        unfold bind at 1. rewrite Ec.
        destruct (Hfreed w4) as (w5 & Ef & Hm5 & Hh5 & He5);
          [by rewrite Hm4|by rewrite Hh4|].
        unfold bind. rewrite Ef. intros [= <- <-]. split; [|done]. intros _.
        repeat split; eauto 10.
      * intros [= <- <-]. split; [done|]. by intros _.
    + destruct (Z.land oflag O_CREAT =? 0).
      * destruct (Hfreed w3 Hm3 Hh3) as (w4 & Ef & Hm4 & Hh4 & He4).
        unfold bind. rewrite Ef. intros [= <- <-]. split; [|done]. intros _.
        repeat split; eauto 10.
      * intros [= <- <-]. split; [done|]. by intros _.
Qed.

Lemma sem_open_null_iff_failed_witness :
  exists w',
    sem_open INT_MAX (Some "x"%string) 0 0 3 caller_world = Ret NULL w'
    /\ mem w' = mem caller_world /\ heap w' = heap caller_world
    /\ errno w' = Some ENOENT.
Proof.
  eexists. split; [vm_compute; reflexivity|].
  match goal with |- mem ?w' = _ /\ _ =>
    destruct (sem_open_null_iff_failed INT_MAX caller_world w'
                (Some "x"%string) 0 0 3 NULL) as [H _];
      [vm_compute; reflexivity|]
  end.
  destruct (H eq_refl) as (H1 & H2 & _).
  split; [exact H1|]. split; [exact H2|]. reflexivity.
Defined.

(** ** One unit per call *)

Lemma wait_outcome (w w' : world) (h ms r : Z) :
  WaitForSingleObject h ms w = Ret r w' ->
  (r = WAIT_OBJECT_0
   /\ exists o k, resolve h w = Some (o, k)
        /\ objects w' = <[o := set_count (count k + -1) k]> (objects w))
  \/ ((r = WAIT_TIMEOUT \/ r = WAIT_FAILED) /\ objects w' = objects w).
Proof.
  unfold WaitForSingleObject. destruct (resolve h w) as [[o k]|].
  - destruct (0 <? count k).
    + intros [= <- <-]. left. split; [done|]. by exists o, k.
    + destruct (ms =? INFINITE); [done|]. intros [= <- <-]. right. eauto.
  - intros [= <- <-]. right. eauto.
Qed.

Lemma release_outcome (w w' : world) (h : Z) (r : Z * Z) :
  ReleaseSemaphore h 1 w = Ret r w' ->
  (fst r = 1
   /\ exists o k, resolve h w = Some (o, k)
        /\ objects w' = <[o := set_count (count k + 1) k]> (objects w))
  \/ (fst r = 0 /\ objects w' = objects w).
Proof.
  unfold ReleaseSemaphore. destruct (resolve h w) as [[o k]|].
  - change (1 <=? 0) with false. cbv beta iota.
    destruct (maximum k <? count k + 1); intros [= <- <-].
    + by right.
    + left. split; [done|]. by exists o, k.
  - intros [= <- <-]. by right.
Qed.

Lemma load_outcome (w w' : world) (p v : Z) :
  load p w = Ret v w' -> w' = w /\ mem w !! p = Some v.
Proof.
  unfold load. destruct (p =? NULL); [done|].
  destruct (mem w !! p) as [x|]; [|done]. by intros [= <- <-].
Qed.

(** What a wait does once the handle has been read from the cell at [sem]:
    the shape shared by [sem_wait], [sem_trywait] and [sem_timedwait]. *)
Lemma wait_moves_one (w w1 w' : world) (sem h ms rc r : Z) (tail : M Z) :
  mem w !! sem = Some h ->
  WaitForSingleObject h ms w = Ret rc w1 ->
  (rc = WAIT_OBJECT_0 -> tail = ret 0) ->
  (rc <> WAIT_OBJECT_0 -> exists e, tail = set_errno e) ->
  tail w1 = Ret r w' ->
  (r = 0 /\ counter_moved (-1) sem w w') \/ (r = -1 /\ objects w' = objects w).
Proof.
  intros Hm Hwait Hok Hko Htail.
  destruct (wait_outcome _ _ _ _ _ Hwait) as [(-> & o & k & Hr & Ho)|(Hrc & Ho)].
  - rewrite (Hok eq_refl) in Htail. injection Htail as <- <-.
    left. split; [done|]. apply resolve_inv in Hr as [Hh Hk].
    by exists h, o, k.
  - destruct (Hko ltac:(by destruct Hrc as [-> | ->])) as (e' & ->).
    injection Htail as <- <-. right. by split.
Qed.

(** The return value of a wait or a post says what happened to the
    counters.  When [sem_wait], [sem_trywait] or [sem_timedwait] returns 0,
    the counter behind the handle has gone down by exactly one and no other
    kernel object has changed; when [sem_post] returns 0, it has gone up by
    exactly one.  When any of the four returns another value, that value is
    -1 and no kernel object has changed. *)
Theorem wait_and_post_move_one_unit (w w' : world) (sem r : Z) (t : timespec) :
  (sem_wait sem w = Ret r w'
   \/ sem_trywait sem w = Ret r w'
   \/ sem_timedwait sem t w = Ret r w' ->
   (r = 0 /\ counter_moved (-1) sem w w') \/ (r = -1 /\ objects w' = objects w))
  /\ (sem_post sem w = Ret r w' ->
      (r = 0 /\ counter_moved 1 sem w w') \/ (r = -1 /\ objects w' = objects w)).
Proof.
  split.
  - intros [E|[E|E]]; revert E.
    + unfold sem_wait. cbv zeta.
      destruct ((sem =? NULL) || (sem =? NULL)); [by intros [= <- <-]; right|].
      unfold bind at 1. destruct (load sem w) as [h w0| |] eqn:El; [|done|done].
      apply load_outcome in El as [-> Hm].
      unfold bind. destruct (WaitForSingleObject h INFINITE w) as [rc w1| |] eqn:Ew;
        [|done|done].
      intros Htail.
      refine (wait_moves_one w w1 w' sem h _ rc r _ Hm Ew _ _ Htail).
      * by intros ->.
      * intros Hrc. exists EINVAL.
        by rewrite (proj2 (Z.eqb_neq _ _) Hrc).
    + unfold sem_trywait. cbv zeta.
      destruct ((sem =? NULL) || (sem =? NULL)); [by intros [= <- <-]; right|].
      unfold bind at 1. destruct (load sem w) as [h w0| |] eqn:El; [|done|done].
      apply load_outcome in El as [-> Hm].
      unfold bind. destruct (WaitForSingleObject h 0 w) as [rc w1| |] eqn:Ew;
        [|done|done].
      intros Htail.
      refine (wait_moves_one w w1 w' sem h _ rc r _ Hm Ew _ _ Htail).
      * by intros ->.
      * intros Hrc. rewrite (proj2 (Z.eqb_neq _ _) Hrc).
        destruct (rc =? WAIT_TIMEOUT); eauto.
    + unfold sem_timedwait. cbv zeta.
      destruct ((sem =? NULL) || (sem =? NULL)); [by intros [= <- <-]; right|].
      unfold bind at 1. destruct (load sem w) as [h w0| |] eqn:El; [|done|done].
      apply load_outcome in El as [-> Hm].
      unfold bind at 1, arch_rel_time_in_ms.
      unfold bind.
      destruct (WaitForSingleObject h _ w) as [rc w1| |] eqn:Ew; [|done|done].
      intros Htail.
      refine (wait_moves_one w w1 w' sem h _ rc r _ Hm Ew _ _ Htail).
      * by intros ->.
      * intros Hrc. rewrite (proj2 (Z.eqb_neq _ _) Hrc).
        destruct (rc =? WAIT_TIMEOUT); eauto.
  - unfold sem_post. cbv zeta.
    destruct ((sem =? NULL) || (sem =? NULL)); [by intros [= <- <-]; right|].
    unfold bind at 1. destruct (load sem w) as [h w0| |] eqn:El; [|done|done].
    apply load_outcome in El as [-> Hm].
    unfold bind at 1.
    destruct (ReleaseSemaphore h 1 w) as [rr w1| |] eqn:Er; [|done|done].
    destruct (release_outcome _ _ _ _ Er) as [(Hf & o & k & Hr & Ho)|(Hf & Ho)];
      rewrite Hf.
    + intros [= <- <-]. left. split; [done|].
      apply resolve_inv in Hr as [Hh Hk]. by exists h, o, k.
    + change (0 =? 0) with true. cbv beta iota.
      unfold bind, GetLastError.
      destruct (ERROR_TOO_MANY_POSTS =? last_error w1);
        intros [= <- <-]; right; by split.
Qed.

Lemma wait_and_post_move_one_unit_witness :
  counter_moved 1 1 probe_world
    (set_objects (<[0 := KSem 4 10 EmptyString 1]> (objects probe_world))
                 probe_world)
  /\ objects (put_errno EAGAIN drained_world) = objects drained_world.
Proof.
  split.
  - destruct (wait_and_post_move_one_unit probe_world
                (set_objects (<[0 := KSem 4 10 EmptyString 1]> (objects probe_world))
                             probe_world) 1 0 (Timespec 0 0)) as [_ H].
    destruct (H eq_refl) as [[_ Hm]|[Hr _]]; [exact Hm|discriminate].
  - destruct (wait_and_post_move_one_unit drained_world
                (put_errno EAGAIN drained_world) 1 (-1) (Timespec 0 0)) as [H _].
    destruct (H (or_intror (or_introl eq_refl))) as [[Hr _]|[_ Ho]];
      [discriminate|exact Ho].
Defined.

(** ** Posting at the maximum on the [sem_t] that [sem_init] filled *)

(** C8. [sem_init] with the largest initial value creates a semaphore whose
    counter is at its maximum, and leaves the address of the wrapper in the
    caller's [sem_t].  [sem_post] on that [sem_t] reads the native handle
    from the same cell: it hands the wrapper's address to
    [ReleaseSemaphore], which knows no such handle, and the call returns -1
    with [errno] set to [EINVAL], not [EOVERFLOW].  The counter does stay at
    the maximum, and [sem_post] applied to the wrapper itself, whose cell
    holds the handle, reports [EOVERFLOW]. *)
Theorem sem_post_at_maximum_after_sem_init (SEM_VALUE_MAX : Z) (w : world)
      (sem : Z) :
  0 < SEM_VALUE_MAX <= INT_MAX ->
  sem <> NULL -> is_Some (mem w !! sem) ->
  calloc_fails w = false -> create_fault w = None ->
  handles w !! new_block w = None -> new_block w <> new_handle w ->
  exists w' pv h o,
    sem_init SEM_VALUE_MAX sem PTHREAD_PROCESS_PRIVATE SEM_VALUE_MAX w = Ret 0 w'
    /\ mem w' !! sem = Some pv /\ mem w' !! pv = Some h
    /\ handles w' !! h = Some o
    /\ objects w' !! o = Some (KSem SEM_VALUE_MAX SEM_VALUE_MAX EmptyString 1)
    /\ sem_post sem w'
       = Ret (-1) (put_errno EINVAL (set_last_error ERROR_INVALID_HANDLE w'))
    /\ sem_post pv w'
       = Ret (-1) (put_errno EOVERFLOW (set_last_error ERROR_TOO_MANY_POSTS w')).
Proof.
  intros Hrange Hsem Hmem Hc Hf Hnh Hne.
  destruct (new_block_fresh w) as (Hb0 & Hbm & Hbh).
  assert (Hsb : sem <> new_block w).
  { intros ->. destruct Hmem as [x Hx]. congruence. }
  pose proof (sem_init_private_world SEM_VALUE_MAX Hrange w sem SEM_VALUE_MAX
                Hsem Hmem ltac:(lia) Hc Hf) as Hinit.
  match type of Hinit with _ = Ret 0 ?x => set (w1 := x) in * end.
  assert (Hslot : mem w1 !! sem = Some (new_block w))
    by (subst w1; world_simpl; apply lookup_insert_eq).
  assert (Hcell : mem w1 !! new_block w = Some (new_handle w)).
  { subst w1; world_simpl. rewrite lookup_insert_ne by done.
    apply lookup_insert_eq. }
  assert (Hh : handles w1 !! new_handle w = Some (new_object w))
    by (subst w1; world_simpl; apply lookup_insert_eq).
  assert (Ho : objects w1 !! new_object w
               = Some (KSem SEM_VALUE_MAX SEM_VALUE_MAX EmptyString 1))
    by (subst w1; world_simpl; apply lookup_insert_eq).
  exists w1, (new_block w), (new_handle w), (new_object w).
  repeat split; try done.
  - apply (stale_handle_routines w1 sem (new_block w) sem (Timespec 0 0));
      [done|done|].
    unfold resolve. subst w1; world_simpl.
    rewrite lookup_insert_ne by done. by rewrite Hnh.
  - pose proof (resolve_ok w1 _ _ _ Hh Ho) as Hr.
    unfold sem_post; enter_handle Hb0 Hcell; unfold bind.
    rewrite (release_too_many w1 _ _ _ Hr) by (simpl; lia).
    reflexivity.
Qed.

Lemma sem_post_at_maximum_after_sem_init_witness :
  exists w' pv h o,
    sem_init INT_MAX 1 PTHREAD_PROCESS_PRIVATE INT_MAX caller_world = Ret 0 w'
    /\ mem w' !! 1 = Some pv /\ mem w' !! pv = Some h
    /\ handles w' !! h = Some o
    /\ objects w' !! o = Some (KSem INT_MAX INT_MAX EmptyString 1)
    /\ sem_post 1 w'
       = Ret (-1) (put_errno EINVAL (set_last_error ERROR_INVALID_HANDLE w'))
    /\ sem_post pv w'
       = Ret (-1) (put_errno EOVERFLOW (set_last_error ERROR_TOO_MANY_POSTS w')).
Proof.
  apply (sem_post_at_maximum_after_sem_init INT_MAX caller_world 1);
    [ unfold INT_MAX; lia | discriminate | vm_compute; eauto
    | reflexivity | reflexivity | by vm_compute | by vm_compute ].
Defined.
